(** * Session guard with remember-me tokens: model and properties

    [src/src/session/guard.ts] holds two revisions of the session guard.  The
    model follows the second one, [src/guards/session/guard.ts]: it is the one
    [src/guards/session/types.ts] and
    [tests/guards/session/authenticate.spec.ts] belong to, the one with
    [logout], with tokens scoped to a guard and with the null test on the
    decoded cookie.  The first one is an earlier state of the same class
    (tokens without a guard name, no [logout], the cookie decoded without a
    null test) and is not modelled.

    Of that class the model has [sessionKeyName], [rememberMeKeyName],
    [#getTokenProvider], [#getSession], [#authenticationFailed],
    [withRememberMeTokens], [getUserOrFail], [login], [authenticate], [check],
    [logout] and [authenticateAsClient].  It does not have
    [verifyCredentials], [attempt], [loginViaId] and [#loginFailed], which
    verify credentials through the user provider and emit two events
    ([credentials_verified], [login_failed]) that the modelled emitter does
    not carry.

    The guard is a class whose methods mutate the guard instance and talk to
    collaborators (session, cookies, the user provider, the token provider,
    the emitter).  It is embedded as a state-and-exception monad over a
    [State] made of the guard instance ([this]) and of the [World] the
    collaborators live in.  A thrown exception keeps the state reached so far:
    nothing is rolled back.  Every call that leaves the guard is appended to a
    log, so that "no I/O" and "before the event" can be stated.

    The collaborators themselves are not in the repository's sources (the
    session and the cookies belong to the framework) or not under src/ (the
    token class, the token provider, the user provider, the error classes);
    each of them is modelled from the contract the spec gives in section 6,
    and says so.

    Time is a number of milliseconds since the epoch, in UTC; a call observes
    one instant [now] (the clock does not tick inside one method call).  The
    [Date] that [authenticate] builds from [token.updatedAt] and moves with
    [setSeconds(getSeconds() + 60)] follows ECMAScript: the seconds are those
    of the local wall clock, so the offsets of the time zone of the process,
    [LocalTZA], are part of the model, and a time value out of the range of
    [Date] is NaN. *)

From stdpp Require Import gmap strings list fin_maps.
From Stdlib Require Import ZArith Lia.

Local Open Scope Z_scope.

(** ** Values *)

(** A user id is a [string | number]; the guard tests it for truthiness. *)
Inductive UserId :=
| IdNum (n : Z)
| IdStr (s : string).

#[global] Instance UserId_eq_dec : EqDecision UserId.
Proof. solve_decision. Defined.

#[global] Instance UserId_countable : Countable UserId :=
  inj_countable'
    (λ i, match i with IdNum n => inl n | IdStr s => inr s end)
    (λ x, match x with inl n => IdNum n | inr s => IdStr s end)
    (λ i, match i with IdNum _ => eq_refl | IdStr _ => eq_refl end).

(** JavaScript truthiness of a value read from the session ([undefined], [0]
    and the empty string are falsy). *)
Definition truthy_id (v : option UserId) : bool :=
  match v with
  | None => false
  | Some (IdNum n) => negb (n =? 0)
  | Some (IdStr s) => negb (bool_decide (s = EmptyString))
  end.

(** JavaScript truthiness of a cookie value ([string | undefined]). *)
Definition truthy_str (v : option string) : bool :=
  match v with
  | None => false
  | Some s => negb (bool_decide (s = EmptyString))
  end.

(** The real user of the application and the provider's wrapper around it. *)
Record User := mkUser { user_id : UserId; user_email : string }.

Record ProviderUser := mkProviderUser { getOriginal : User }.

Definition getId (p : ProviderUser) : UserId := user_id (getOriginal p).

(** [SessionGuardConfig.rememberMeTokenAge : string | number] (optional). *)
Inductive Age :=
| AgeNum (seconds : Z)
| AgeStr (expression : string).

Definition truthy_age (a : option Age) : bool :=
  match a with
  | None => false
  | Some (AgeNum n) => negb (n =? 0)
  | Some (AgeStr s) => negb (bool_decide (s = EmptyString))
  end.

(** [this.#config.rememberMeTokenAge || '2years'] *)
Definition age_or_default (a : option Age) : Age :=
  match a with
  | Some x => if truthy_age a then x else AgeStr "2years"
  | None => AgeStr "2years"
  end.

(** Modelled from the spec: the error taxonomy of [auth/errors.js] (section 7);
    the file is not under src/.  [AuthenticationException] is the class whose
    static factories build the two auth-failure kinds; everything outside the
    taxonomy (an I/O failure of a collaborator, a rejected duration) is
    [OtherError]. *)
Inductive AuthFailure := E_INVALID_AUTH_SESSION | E_INVALID_AUTH_TOKEN.

Inductive Exception :=
| AuthenticationException (kind : AuthFailure)
| InvalidCredentialsException
| RuntimeException (message : string)
| OtherError (message : string).

(** [error instanceof AuthenticationException] *)
Definition instanceof_AuthenticationException (e : Exception) : bool :=
  match e with
  | AuthenticationException _ => true
  | _ => false
  end.

(** The remember-me token object.  [value] is the transient secret as the
    guard handles it: the string it puts in the cookie ([token.value.release()])
    and later hands to [decode]; it is absent on a token read back from the
    store. *)
Record RememberMeToken := mkToken {
  series : string;
  value : option string;
  hash : string;
  userId : UserId;
  guard : string;
  expiresAt : Z;
  createdAt : Z;
  updatedAt : Z
}.

(** Modelled from the spec: the persisted row of section 6,
    [(series PRIMARY KEY, user_id, guard, hash, type, created_at, updated_at,
    expires_at)]; the series is the key of the table and the secret is not a
    column.  All rows here are of the remember-me type. *)
Record TokenRow := mkRow {
  row_user_id : UserId;
  row_guard : string;
  row_hash : string;
  row_created_at : Z;
  row_updated_at : Z;
  row_expires_at : Z
}.

(** ** The guard instance *)

Record SessionGuard := mkGuard {
  name : string;                       (* #name *)
  rememberMeTokenAge : option Age;     (* #config.rememberMeTokenAge *)
  rememberMeTokenProvider : bool;      (* is #rememberMeTokenProvider set? *)
  authenticationAttempted : bool;
  isLoggedOut : bool;
  isAuthenticated : bool;
  viaRemember : bool;
  user : option User
}.

(** ** The world of the collaborators *)

Record Session := mkSession {
  values : gmap string UserId;
  sessionId : N
}.

Inductive ResponseCookie :=
| EncryptedCookie (content : string) (maxAge : Age) (httpOnly : bool)
| ClearedCookie.

Inductive Event :=
| login_attempted (u : User)
| login_succeeded (u : User) (sid : N) (rememberMeToken : option RememberMeToken)
| authentication_attempted (sid : N)
| authentication_succeeded (u : User) (sid : N) (rememberMeToken : option RememberMeToken)
| authentication_failed (error : Exception) (sid : N)
| logged_out (u : option User) (sid : N).

(** Every call that leaves the guard is recorded.  An emitted event is
    recorded with the guard name it carries and with what a synchronous
    listener can observe at that moment: the guard instance and the session. *)
Inductive IO :=
| SessionGet (key : string)
| SessionPut (key : string) (v : UserId)
| SessionForget (key : string)
| SessionRegenerate
| RequestCookie (key : string)
| ResponseEncryptedCookie (key content : string) (maxAge : Age)
| ResponseClearCookie (key : string)
| CreateUserForGuard (u : User)
| FindById (i : UserId)
| CreateToken (t : RememberMeToken)
| GetTokenBySeries (s : string)
| UpdateTokenBySeries (s : string) (t : RememberMeToken)
| DeleteTokenBySeries (s : string)
| Emit (e : Event) (guardName : string) (seen : SessionGuard) (seenSession : option Session).

Record World := mkWorld {
  session : option Session;                  (* ctx.session, when installed *)
  requestCookies : gmap string string;       (* decrypted request cookies *)
  responseCookies : gmap string ResponseCookie;
  users : gmap UserId User;                  (* behind the user provider *)
  tokens : gmap string TokenRow;             (* behind the token provider *)
  now : Z;                                   (* new Date() *)
  entropy : N;                               (* state of the random source *)
  fault : option string;                     (* storage outage, if any *)
  log : list IO                              (* newest first *)
}.

Record State := mkState { this : SessionGuard; world : World }.

(** ** The monad *)

Inductive Result (A : Type) :=
| Ok (a : A)
| Throw (e : Exception).
Arguments Ok {A} a.
Arguments Throw {A} e.

Definition M (A : Type) : Type := State → Result A * State.

Definition ret {A} (a : A) : M A := λ s, (Ok a, s).

Definition throw {A} (e : Exception) : M A := λ s, (Throw e, s).

Definition bind {A B} (m : M A) (k : A → M B) : M B :=
  λ s, match m s with
       | (Ok a, s') => k a s'
       | (Throw e, s') => (Throw e, s')
       end.

(** [try { m } catch (error) { h error }] *)
Definition try_catch {A} (m : M A) (h : Exception → M A) : M A :=
  λ s, match m s with
       | (Ok a, s') => (Ok a, s')
       | (Throw e, s') => h e s'
       end.

Declare Scope guard_scope.
Delimit Scope guard_scope with guard.
Notation "'let*' x := m 'in' k" := (bind m (λ x, k))
  (at level 10, x name, m at level 100, k at level 200) : guard_scope.
Notation "m ;;; k" := (bind m (λ _, k))
  (at level 100, k at level 200, right associativity) : guard_scope.
Local Open Scope guard_scope.

Definition getThis : M SessionGuard := λ s, (Ok (this s), s).

Definition getWorld : M World := λ s, (Ok (world s), s).

Definition setThis (f : SessionGuard → SessionGuard) : M unit :=
  λ s, (Ok tt, mkState (f (this s)) (world s)).

Definition setWorld (f : World → World) : M unit :=
  λ s, (Ok tt, mkState (this s) (f (world s))).

Definition with_log (io : IO) (w : World) : World :=
  mkWorld (session w) (requestCookies w) (responseCookies w) (users w)
          (tokens w) (now w) (entropy w) (fault w) (io :: log w).

Definition with_session (f : Session → Session) (w : World) : World :=
  mkWorld (f <$> session w) (requestCookies w) (responseCookies w) (users w)
          (tokens w) (now w) (entropy w) (fault w) (log w).

Definition with_responseCookies
    (f : gmap string ResponseCookie → gmap string ResponseCookie) (w : World) : World :=
  mkWorld (session w) (requestCookies w) (f (responseCookies w)) (users w)
          (tokens w) (now w) (entropy w) (fault w) (log w).

Definition with_tokens
    (f : gmap string TokenRow → gmap string TokenRow) (w : World) : World :=
  mkWorld (session w) (requestCookies w) (responseCookies w) (users w)
          (f (tokens w)) (now w) (entropy w) (fault w) (log w).

Definition with_entropy (n : N) (w : World) : World :=
  mkWorld (session w) (requestCookies w) (responseCookies w) (users w)
          (tokens w) (now w) n (fault w) (log w).

Definition record (io : IO) : M unit := setWorld (with_log io).

(** [this.#emitter.emit(event, { ctx, guardName, ... })] *)
Definition emit (e : Event) : M unit :=
  λ s, (Ok tt,
        mkState (this s)
                (with_log (Emit e (name (this s)) (this s) (session (world s)))
                          (world s))).

(** ** Collaborators *)

(** Modelled from the spec: [session.get(key)] of the session abstraction of
    section 6 (the session package is not under src/). *)
Definition session_get (key : string) : M (option UserId) :=
  record (SessionGet key);;;
  let* w := getWorld in
  ret (match session w with Some ss => values ss !! key | None => None end).

(** Modelled from the spec: [session.put(key, value)] of section 6. *)
Definition session_put (key : string) (v : UserId) : M unit :=
  record (SessionPut key v);;;
  setWorld (with_session (λ ss, mkSession (<[key := v]> (values ss)) (sessionId ss))).

(** Modelled from the spec: [session.forget(key)] of section 6. *)
Definition session_forget (key : string) : M unit :=
  record (SessionForget key);;;
  setWorld (with_session (λ ss, mkSession (delete key (values ss)) (sessionId ss))).

(** Modelled from the spec: [session.regenerate()] of section 6 rotates the
    session identifier; identifiers are numbered and the next one is taken. *)
Definition session_regenerate : M unit :=
  record SessionRegenerate;;;
  setWorld (with_session (λ ss, mkSession (values ss) (N.succ (sessionId ss)))).

(** The identifier of the session of a world. *)
Definition current_session_id (w : World) : N :=
  match session w with
  | Some ss => sessionId ss
  | None => 0%N
  end.

(** Modelled from the spec: [session.sessionId] of section 6, the current
    identifier. *)
Definition session_sessionId : M N :=
  let* w := getWorld in
  ret (current_session_id w).

(** Modelled from the spec: [request.encryptedCookie(name)] of section 6,
    the decrypted cookie or undefined. *)
Definition request_encryptedCookie (key : string) : M (option string) :=
  record (RequestCookie key);;;
  let* w := getWorld in
  ret (requestCookies w !! key).

(** Modelled from the spec: [response.encryptedCookie(name, value, { maxAge,
    httpOnly: true })] of section 6. *)
Definition response_encryptedCookie (key content : string) (maxAge : Age) : M unit :=
  record (ResponseEncryptedCookie key content maxAge);;;
  setWorld (with_responseCookies (λ c, <[key := EncryptedCookie content maxAge true]> c)).

(** Modelled from the spec: [response.clearCookie(name)] of section 6. *)
Definition response_clearCookie (key : string) : M unit :=
  record (ResponseClearCookie key);;;
  setWorld (with_responseCookies (λ c, <[key := ClearedCookie]> c)).

(** Modelled from the spec: a call into the storage behind a provider; it is
    recorded, and it fails with an error outside the auth taxonomy when
    storage is down (the provider I/O failures of section 7). *)
Definition storage {A} (io : IO) (op : M A) : M A :=
  record io;;;
  let* w := getWorld in
  match fault w with
  | Some message => throw (OtherError message)
  | None => op
  end.

(** Modelled from the spec: [findById(id)] of the user-lookup provider of
    section 6 (no user provider is under src/): the provider user of that id,
    or null. *)
Definition findById (i : UserId) : M (option ProviderUser) :=
  storage (FindById i)
    (let* w := getWorld in ret (mkProviderUser <$> users w !! i)).

(** Modelled from the spec: [createUserForGuard(user)] of section 6 adapts
    a user into the shape that exposes [getId] and [getOriginal]. *)
Definition createUserForGuard (u : User) : M ProviderUser :=
  record (CreateUserForGuard u);;;
  ret (mkProviderUser u).

(** ** The remember-me token *)

Definition dquote : string := String (Ascii.ascii_of_nat 34) EmptyString.

Definition dot : Ascii.ascii := Ascii.ascii_of_nat 46.

(** Cuts a string at its first dot: [value.split('.')] seen as the first part
    and the remaining parts joined again. *)
Fixpoint split_first_dot (s : string) : option (string * string) :=
  match s with
  | EmptyString => None
  | String c rest =>
      if Ascii.eqb c dot then Some (EmptyString, rest)
      else match split_first_dot rest with
           | Some (a, b) => Some (String c a, b)
           | None => None
           end
  end.

Fixpoint has_dot (s : string) : bool :=
  match s with
  | EmptyString => false
  | String c rest => Ascii.eqb c dot || has_dot rest
  end.

Definition nonempty (s : string) : bool :=
  match s with
  | EmptyString => false
  | String _ _ => true
  end.

(** Modelled from the spec: the format of a series.  The spec leaves it open
    (an opaque identifier); the format taken is the least one under which the
    two-part encoding can be read back: not empty, and free of the
    separator. *)
Definition valid_series (s : string) : bool := nonempty s && negb (has_dot s).

(** Modelled from the spec: the cookie wire format [series.value] of sections
    3 and 6 ([remember_me_token.js] is not under src/). *)
Definition encode (s secret : string) : string :=
  s ++ String dot secret.

(** Modelled from the spec: [decode] of section 4.1 splits the two-part
    encoding and answers null (here [None]) on malformed input, missing parts
    or an invalid series format. *)
Definition decode (cookie : string) : option (string * string) :=
  match split_first_dot cookie with
  | None => None
  | Some (s, secret) =>
      if valid_series s && nonempty secret then Some (s, secret) else None
  end.

(** ** Dates

    The abstract operations of ECMAScript on time values (21.4.1), on
    integers: [/] is the floor of the quotient and [mod] has the sign of the
    divisor. *)

Definition msPerSecond : Z := 1000.
Definition msPerMinute : Z := 60000.
Definition msPerHour : Z := 3600000.
Definition msPerDay : Z := 86400000.

Definition Day (t : Z) : Z := t / msPerDay.
Definition HourFromTime (t : Z) : Z := (t / msPerHour) mod 24.
Definition MinFromTime (t : Z) : Z := (t / msPerMinute) mod 60.
Definition SecFromTime (t : Z) : Z := (t / msPerSecond) mod 60.
Definition msFromTime (t : Z) : Z := t mod msPerSecond.

Definition MakeTime (hour min sec ms : Z) : Z :=
  hour * msPerHour + min * msPerMinute + sec * msPerSecond + ms.

Definition MakeDate (day time : Z) : Z := day * msPerDay + time.

(** A [Date] is its time value, or NaN ([None]) for an invalid date. *)
Definition Date : Type := option Z.

(** [TimeClip]: a time value further than 10^8 days from the epoch is NaN. *)
Definition TimeClip (t : Z) : Date :=
  if bool_decide (Z.abs t ≤ 8640000000000000) then Some t else None.

(** [new Date(value)] for a [value] that is a date of time value [tv]. *)
Definition new_Date (tv : Z) : Date := TimeClip tv.

(** [d < t] for a date [d] and a valid date of time value [t]: the time
    values are compared, and NaN is less than nothing. *)
Definition date_lt (d : Date) (t : Z) : bool :=
  match d with
  | Some tv => bool_decide (tv < t)
  | None => false
  end.

(** ** Sample requests *)

Module Sample.

Definition digest (s : string) : string := "sha256:" ++ s.

Definition random (n : N) : string :=
  match n with
  | 0%N => "r0"
  | 1%N => "r1"
  | 2%N => "r2"
  | _ => "rN"
  end.

(** [60] or ["1 minute"], ["1 year"], ["2years"]; anything else is invalid. *)
Definition parseAge (a : Age) : option Z :=
  match a with
  | AgeNum n => if 0 <=? n then Some (n * 1000) else None
  | AgeStr s =>
      if bool_decide (s = "1 minute") then Some 60000
      else if bool_decide (s = "1 year") then Some 31557600000
      else if bool_decide (s = "2years") then Some 63115200000
      else None
  end.

(** The time zone of the sample requests is UTC. *)
Definition localTZA (t : Z) (isUTC : bool) : Z := 0.

(** 27 October 2024, 01:00 UTC: the clocks of Europe/Paris go back from
    03:00 to 02:00. *)
Definition fall_back : Z := 1729990800000.

(** The offsets of Europe/Paris around that change: UTC+2 before it and UTC+1
    from then on; a wall-clock time of the repeated hour is read with the
    offset before the change. *)
Definition paris (t : Z) (isUTC : bool) : Z :=
  if isUTC then
    if bool_decide (t < fall_back) then 7200000 else 3600000
  else
    if bool_decide (t < fall_back + 7200000) then 7200000 else 3600000.

Definition alice : User := mkUser (IdNum 7) "alice@example.com".

Definition web : SessionGuard :=
  mkGuard "web" (Some (AgeStr "1 year")) true false false false false None.

(** A row of series [s1] whose secret is [v1], minted for guard [web] at
    time 0 and expiring at 10^9. *)
Definition row1 : TokenRow :=
  mkRow (IdNum 7) "web" (digest "v1") 0 0 1000000000.

Definition world0 : World :=
  mkWorld (Some (mkSession ∅ 10)) ∅ ∅ {[ IdNum 7 := alice ]} {[ "s1" := row1 ]}
          1000 0 None [].

Definition with_cookie (c : string) (w : World) : World :=
  mkWorld (session w) (<["remember_web" := c]> (requestCookies w))
          (responseCookies w) (users w) (tokens w) (now w) (entropy w)
          (fault w) (log w).

Definition at_time (t : Z) (w : World) : World :=
  mkWorld (session w) (requestCookies w) (responseCookies w) (users w)
          (tokens w) t (entropy w) (fault w) (log w).

Definition with_users (us : gmap UserId User) (w : World) : World :=
  mkWorld (session w) (requestCookies w) (responseCookies w) us
          (tokens w) (now w) (entropy w) (fault w) (log w).

Definition without_session (w : World) : World :=
  mkWorld None (requestCookies w) (responseCookies w) (users w)
          (tokens w) (now w) (entropy w) (fault w) (log w).

(** The cookie of row [s1], presented one second after the row was minted. *)
Definition fresh_request : World := with_cookie "s1.v1" world0.

(** The same cookie, presented a minute and a millisecond after. *)
Definition late_request : World := at_time 60001 fresh_request.

(** The same cookie, presented at the instant the row expires. *)
Definition expired_request : World := at_time 1000000000 fresh_request.

(** The same cookie, once its owner has been deleted. *)
Definition orphan_request : World := with_users ∅ fresh_request.

(** The next request of the same browser at time [t]: a new session, the same
    request cookie, the store as the previous request left it. *)
Definition next_request (t : Z) (w : World) : World :=
  mkWorld (Some (mkSession ∅ 20)) (requestCookies w) ∅ (users w)
          (tokens w) t (entropy w) (fault w) (log w).

(** A request at the instant [t] that presents the cookie of a row of series
    [s1] last updated at [updated] and valid for a year from then. *)
Definition request_of_row (updated t : Z) : World :=
  mkWorld (Some (mkSession ∅ 10)) {[ "remember_web" := "s1.v1" ]} ∅
          {[ IdNum 7 := alice ]}
          {[ "s1" := mkRow (IdNum 7) "web" (digest "v1") 0 updated
                           (updated + 31557600000) ]}
          t 0 None [].

(** In Paris: the row was updated at 02:30 of the repeated hour, after the
    change (01:30 UTC), and the cookie comes back one second later. *)
Definition repeated_hour_request : World :=
  request_of_row (fall_back + 1800000) (fall_back + 1801000).

(** In Paris: the row was updated at 02:59:30, thirty seconds before the
    change, and the cookie comes back half an hour later. *)
Definition before_change_request : World :=
  request_of_row (fall_back - 30000) (fall_back + 1770000).

(** A cookie that is not a two-part encoding. *)
Definition garbled_request : World := with_cookie "foobar" world0.

(** A request without the session middleware. *)
Definition bare_request : World := without_session world0.

(** A second guard, [api], that is handed the token minted for [web]. *)
Definition api : SessionGuard :=
  mkGuard "api" (Some (AgeStr "1 year")) true false false false false None.

Definition api_request : World :=
  mkWorld (session world0) (<["remember_api" := "s1.v1"]> ∅) ∅ (users world0)
          (tokens world0) (now world0) (entropy world0) None [].

(** The guard [web] without a token provider. *)
Definition web_plain : SessionGuard :=
  mkGuard "web" (Some (AgeStr "1 year")) false false false false false None.

(** The guard [web] after an attempt that found no one. *)
Definition web_attempted : SessionGuard :=
  mkGuard "web" (Some (AgeStr "1 year")) true true false false false None.

(** The guard [web] of a request that authenticated [alice] from her cookie. *)
Definition web_authenticated : SessionGuard :=
  mkGuard "web" (Some (AgeStr "1 year")) true true false true true (Some alice).

End Sample.

(** ** Further sample requests *)

Module Scenario.

Import Sample.

(** A session that holds the id of [alice] for guard [web]. *)
Definition session_of_alice : Session :=
  mkSession {[ "auth_web" := IdNum 7 ]} 10.

(** A request with that session, which carries her cookie as well. *)
Definition session_request : World :=
  mkWorld (Some session_of_alice) (requestCookies fresh_request) ∅
          (users world0) (tokens world0) 1000 0 None [].

(** A user whose id is falsy, and a world whose users are that one. *)
Definition zero : User := mkUser (IdNum 0) "zero@example.com".

Definition world_of_zero : World := with_users {[ IdNum 0 := zero ]} world0.

(** A later request at time [t] that carries the cookie [c] for guard [web]:
    a new session, the stores as [w] has them, an empty response and log. *)
Definition later_request (t : Z) (c : string) (w : World) : World :=
  mkWorld (Some (mkSession ∅ 20)) {[ "remember_web" := c ]} ∅ (users w)
          (tokens w) t (entropy w) None [].

(** The row of series [s1] once the late request has rotated it. *)
Definition row1_rotated : TokenRow :=
  mkRow (IdNum 7) "web" (digest "r0") 0 60001 (60001 + 31557600000).

End Scenario.

Section Guard.

(** The digest behind [hash] and [verify], the random source behind [create]
    and [refresh], and the parser of duration expressions (milliseconds, or
    nothing for an invalid duration) are taken as they come. *)
Variable digest : string → string.
Variable random : N → string.
Variable parseAge : Age → option Z.

(** [LocalTZA(t, isUTC)] of ECMAScript (21.4.1.25), the offset of the local
    time zone in milliseconds: at the instant [t] when [isUTC], and else at
    the wall-clock time [t], where a time that the clock shows twice or skips
    is read with the offset before the change. *)
Variable localTZA : Z → bool → Z.

Definition LocalTime (t : Z) : Z := t + localTZA t true.

Definition UTC (t : Z) : Z := t - localTZA t false.

(** [Date.prototype.getSeconds()] *)
Definition getSeconds (d : Date) : option Z :=
  (λ tv, SecFromTime (LocalTime tv)) <$> d.

(** [Date.prototype.setSeconds(sec)], the date it leaves. *)
Definition setSeconds (d : Date) (sec : option Z) : Date :=
  match d, sec with
  | Some tv, Some s =>
      let t := LocalTime tv in
      let date :=
        MakeDate (Day t) (MakeTime (HourFromTime t) (MinFromTime t) s (msFromTime t)) in
      TimeClip (UTC date)
  | _, _ => None
  end.

(** Modelled from the spec: one random string of [create] and [refresh]
    (section 4.1), the next one of the random source. *)
Definition draw : M string :=
  let* w := getWorld in
  setWorld (with_entropy (N.succ (entropy w)));;;
  ret (random (entropy w)).

(** Modelled from the spec: [expiresAt = now + ttl] of section 4.1, an
    invalid duration being rejected. *)
Definition expiry (ttl : Age) : M Z :=
  match parseAge ttl with
  | Some ms => let* w := getWorld in ret (now w + ms)
  | None => throw (OtherError "invalid duration")
  end.

(** Modelled from the spec: [RememberMeToken.create(userId, ttl, guardName)] of
    section 4.1. *)
Definition create (uid : UserId) (ttl : Age) (guardName : string) : M RememberMeToken :=
  let* s := draw in
  let* secret := draw in
  let* e := expiry ttl in
  let* w := getWorld in
  ret (mkToken s (Some (encode s secret)) (digest secret) uid guardName
               e (now w) (now w)).

(** Modelled from the spec: [verify(presentedValue)] of section 4.1 compares
    the digest of the presented value with the stored hash. *)
Definition verify (t : RememberMeToken) (presented : string) : bool :=
  bool_decide (digest presented = hash t).

(** Modelled from the spec: [refresh(ttl)] of section 4.1: a new secret and
    hash, a recomputed expiry, a bumped [updatedAt], the same series. *)
Definition refresh (ttl : Age) (t : RememberMeToken) : M RememberMeToken :=
  let* secret := draw in
  let* e := expiry ttl in
  let* w := getWorld in
  ret (mkToken (series t) (Some (encode (series t) secret)) (digest secret)
               (userId t) (guard t) e (createdAt t) (now w)).

(** Modelled from the spec: [token.value!.release()], the secret of a token
    that has one; the call fails on a token read back from the store, whose
    value is undefined. *)
Definition release (t : RememberMeToken) : M string :=
  match value t with
  | Some v => ret v
  | None => throw (OtherError "TypeError: token.value is undefined")
  end.

(** Modelled from the spec: what the token-persistence provider of section 6
    stores of a token ([token_providers/database.js] is not under src/): all
    of it but the secret, under its series. *)
Definition persisted (t : RememberMeToken) : TokenRow :=
  mkRow (userId t) (guard t) (hash t) (createdAt t) (updatedAt t) (expiresAt t).

(** Modelled from the spec: the token object the provider builds from the
    row of series [s]; it has no secret. *)
Definition from_row (s : string) (row : TokenRow) : RememberMeToken :=
  mkToken s None (row_hash row) (row_user_id row) (row_guard row)
          (row_expires_at row) (row_created_at row) (row_updated_at row).

(** Modelled from the spec: the columns an update by series rewrites (hash,
    expiry and [updatedAt]; section 4.1, [refresh]). *)
Definition rewrite_row (t : RememberMeToken) (row : TokenRow) : TokenRow :=
  mkRow (row_user_id row) (row_guard row) (hash t)
        (row_created_at row) (updatedAt t) (expiresAt t).

(** Modelled from the spec: the lookup by series of the provider.  A token is
    valid only while [now < expiresAt] (section 3) and the guard does not
    read [expiresAt], so the lookup answers null for an expired row, as it
    does for a missing one. *)
Definition live (w : World) (s : string) : option RememberMeToken :=
  match tokens w !! s with
  | Some row =>
      if bool_decide (now w < row_expires_at row) then Some (from_row s row)
      else None
  | None => None
  end.

(** Modelled from the spec: [createToken(token)] of section 6. *)
Definition createToken (t : RememberMeToken) : M unit :=
  storage (CreateToken t)
    (setWorld (with_tokens (λ m, <[series t := persisted t]> m))).

(** Modelled from the spec: [getTokenBySeries(series)] of section 6, a token
    or null. *)
Definition getTokenBySeries (s : string) : M (option RememberMeToken) :=
  storage (GetTokenBySeries s) (let* w := getWorld in ret (live w s)).

(** Modelled from the spec: [updateTokenBySeries(series, token)] of section 6
    rewrites the row of that series, if there is one. *)
Definition updateTokenBySeries (s : string) (t : RememberMeToken) : M unit :=
  storage (UpdateTokenBySeries s t)
    (setWorld (with_tokens (λ m, alter (rewrite_row t) s m))).

(** Modelled from the spec: [deleteTokenBySeries(series)] of section 6. *)
Definition deleteTokenBySeries (s : string) : M unit :=
  storage (DeleteTokenBySeries s)
    (setWorld (with_tokens (λ m, delete s m))).

(** ** The guard *)

(** Line numbers are those of [src/src/session/guard.ts]. *)

(** [get sessionKeyName()] (587-589) *)
Definition sessionKeyName (g : SessionGuard) : string := "auth_" ++ name g.

(** [get rememberMeKeyName()] (594-596) *)
Definition rememberMeKeyName (g : SessionGuard) : string := "remember_" ++ name g.

(** The messages of the two configuration errors. *)
Definition tokens_provider_missing : string :=
  "Cannot use " ++ dquote ++ "rememberMe" ++ dquote ++
  " feature. Please configure the tokens provider inside config/auth file".

Definition session_missing : string :=
  "Cannot login user. Make sure you have installed the " ++ dquote ++
  "@adonisjs/session" ++ dquote ++ " package and configured its middleware".

(** [#getTokenProvider()] (616-624) *)
Definition getTokenProvider : M unit :=
  let* g := getThis in
  if rememberMeTokenProvider g then ret tt
  else throw (RuntimeException tokens_provider_missing).

(** [#getSession()] (630-638); the session itself stays in the world. *)
Definition getSession : M unit :=
  let* w := getWorld in
  match session w with
  | Some _ => ret tt
  | None => throw (RuntimeException session_missing)
  end.

(** [#authenticationFailed(error, sessionId)] (643-652) *)
Definition authenticationFailed {A} (error : Exception) (sid : N) : M A :=
  emit (authentication_failed error sid);;;
  throw error.

(** [withRememberMeTokens(tokensProvider)] (675-678) *)
Definition withRememberMeTokens : M unit :=
  setThis (λ g, mkGuard (name g) (rememberMeTokenAge g) true
                        (authenticationAttempted g) (isLoggedOut g)
                        (isAuthenticated g) (viaRemember g) (user g)).

(** [getUserOrFail()] (684-690) *)
Definition getUserOrFail : M User :=
  let* g := getThis in
  match user g with
  | Some u => ret u
  | None => throw (AuthenticationException E_INVALID_AUTH_SESSION)
  end.

(** [this.user = user; this.isLoggedOut = false] *)
Definition mark_logged_in (u : User) (g : SessionGuard) : SessionGuard :=
  mkGuard (name g) (rememberMeTokenAge g) (rememberMeTokenProvider g)
          (authenticationAttempted g) false (isAuthenticated g)
          (viaRemember g) (Some u).

(** [this.authenticationAttempted = true] *)
Definition mark_attempted (g : SessionGuard) : SessionGuard :=
  mkGuard (name g) (rememberMeTokenAge g) (rememberMeTokenProvider g)
          true (isLoggedOut g) (isAuthenticated g) (viaRemember g) (user g).

(** [this.user = u; this.isAuthenticated = true; this.isLoggedOut = false;
    this.viaRemember = via] *)
Definition mark_authenticated (u : User) (via : bool) (g : SessionGuard) : SessionGuard :=
  mkGuard (name g) (rememberMeTokenAge g) (rememberMeTokenProvider g)
          (authenticationAttempted g) false true via (Some u).

(** [login(user, remember)] (761-830) *)
Definition login (u : User) (remember : bool) : M User :=
  let* g := getThis in
  emit (login_attempted u);;;
  let* providerUser := createUserForGuard u in
  getSession;;;
  let userId := getId providerUser in
  session_put (sessionKeyName g) userId;;;
  session_regenerate;;;
  let* token :=
    (if remember then
       getTokenProvider;;;
       let age := age_or_default (rememberMeTokenAge g) in
       let* token := create (getId providerUser) age (name g) in
       createToken token;;;
       let* content := release token in
       response_encryptedCookie (rememberMeKeyName g) content age;;;
       ret (Some token)
     else
       response_clearCookie (rememberMeKeyName g);;;
       ret None) in
  setThis (mark_logged_in u);;;
  let* sid := session_sessionId in
  emit (login_succeeded u sid token);;;
  ret u.

(** The end of [authenticate] (996-1017): the token is refreshed when the
    date made of its [updatedAt], moved by 60 seconds of the local clock, is
    before the current time, and the cookie is sent again in both cases. *)
Definition authenticate_recycle (g : SessionGuard) (rememberMeCookie : string)
    (token : RememberMeToken) : M unit :=
  let* w := getWorld in
  let currentTime := now w in
  let age := age_or_default (rememberMeTokenAge g) in
  let updatedAtWithBuffer := new_Date (updatedAt token) in
  let updatedAtWithBuffer :=
    setSeconds updatedAtWithBuffer ((λ sec, sec + 60) <$> getSeconds updatedAtWithBuffer) in
  if date_lt updatedAtWithBuffer currentTime then
    let* token := refresh age token in
    updateTokenBySeries (series token) token;;;
    let* content := release token in
    response_encryptedCookie (rememberMeKeyName g) content age
  else
    response_encryptedCookie (rememberMeKeyName g) rememberMeCookie age.

(** The part of [authenticate] that follows the session branch (906-1019).
    The success event is recorded with the token as it is when the event is
    emitted. *)
Definition authenticate_via_cookie (g : SessionGuard) : M User :=
  let* rememberMeCookie := request_encryptedCookie (rememberMeKeyName g) in
  let* g1 := getThis in
  match rememberMeCookie with
  | Some cookie =>
      if negb (truthy_str rememberMeCookie) || negb (rememberMeTokenProvider g1) then
        let* sid := session_sessionId in
        authenticationFailed (AuthenticationException E_INVALID_AUTH_SESSION) sid
      else
        match decode cookie with
        | None =>
            let* sid := session_sessionId in
            authenticationFailed (AuthenticationException E_INVALID_AUTH_SESSION) sid
        | Some (decodedSeries, decodedValue) =>
            let* found := getTokenBySeries decodedSeries in
            match found with
            | None =>
                let* sid := session_sessionId in
                authenticationFailed (AuthenticationException E_INVALID_AUTH_SESSION) sid
            | Some token =>
                if negb (verify token decodedValue)
                   || negb (bool_decide (guard token = name g)) then
                  let* sid := session_sessionId in
                  authenticationFailed (AuthenticationException E_INVALID_AUTH_SESSION) sid
                else
                  let* providerUser := findById (userId token) in
                  match providerUser with
                  | None =>
                      let* sid := session_sessionId in
                      authenticationFailed
                        (AuthenticationException E_INVALID_AUTH_SESSION) sid
                  | Some providerUser =>
                      let userId := getId providerUser in
                      session_put (sessionKeyName g) userId;;;
                      session_regenerate;;;
                      setThis (mark_authenticated (getOriginal providerUser) true);;;
                      let* sid := session_sessionId in
                      emit (authentication_succeeded (getOriginal providerUser) sid
                                                     (Some token));;;
                      authenticate_recycle g cookie token;;;
                      ret (getOriginal providerUser)
                  end
            end
        end
  | None =>
      let* sid := session_sessionId in
      authenticationFailed (AuthenticationException E_INVALID_AUTH_SESSION) sid
  end.

(** [authenticate()] (836-1020) *)
Definition authenticate : M User :=
  let* g := getThis in
  if authenticationAttempted g then getUserOrFail
  else
    setThis mark_attempted;;;
    getSession;;;
    let* sid := session_sessionId in
    emit (authentication_attempted sid);;;
    let* loggedInUserId := session_get (sessionKeyName g) in
    match loggedInUserId with
    | Some i =>
        if truthy_id loggedInUserId then
          let* providerUser := findById i in
          match providerUser with
          | None =>
              let* sid := session_sessionId in
              authenticationFailed (AuthenticationException E_INVALID_AUTH_SESSION) sid
          | Some providerUser =>
              setThis (mark_authenticated (getOriginal providerUser) false);;;
              let* sid := session_sessionId in
              emit (authentication_succeeded (getOriginal providerUser) sid None);;;
              ret (getOriginal providerUser)
          end
        else authenticate_via_cookie g
    | None => authenticate_via_cookie g
    end.

(** [check()] (1028-1039) *)
Definition check : M bool :=
  try_catch
    (authenticate;;; ret true)
    (λ error,
       if instanceof_AuthenticationException error then ret false
       else throw error).

(** [logout()] (1044-1077) *)
Definition logout : M unit :=
  let* g := getThis in
  getSession;;;
  session_forget (sessionKeyName g);;;
  response_clearCookie (rememberMeKeyName g);;;
  let* g1 := getThis in
  let* sid := session_sessionId in
  emit (logged_out (user g1) sid);;;
  let* rememberMeCookie := request_encryptedCookie (rememberMeKeyName g) in
  let* g2 := getThis in
  match rememberMeCookie with
  | Some cookie =>
      if negb (truthy_str rememberMeCookie) || negb (rememberMeTokenProvider g2) then
        ret tt
      else
        match decode cookie with
        | None => ret tt
        | Some (decodedSeries, _) => deleteTokenBySeries decodedSeries
        end
  | None => ret tt
  end.

(** ** Vocabulary of the properties *)

Definition invalid_session : Exception :=
  AuthenticationException E_INVALID_AUTH_SESSION.

(** What [getUserOrFail] answers for a guard. *)
Definition cached (g : SessionGuard) : Result User :=
  match user g with
  | Some u => Ok u
  | None => Throw invalid_session
  end.

(** The session once a user id has been stored under [key] and the identifier
    has been cycled. *)
Definition renewed_session (key : string) (i : UserId) (ss : Session) : Session :=
  mkSession (<[key := i]> (values ss)) (N.succ (sessionId ss)).

(** The calls of a successful authentication from the cookie, up to and
    including the success event, newest first. *)
Definition remember_log (g : SessionGuard) (ss : Session) (s : string)
    (row : TokenRow) (u : User) : list IO :=
  [ Emit (authentication_succeeded u (N.succ (sessionId ss)) (Some (from_row s row)))
         (name g) (mark_authenticated u true (mark_attempted g))
         (Some (renewed_session (sessionKeyName g) (user_id u) ss));
    SessionRegenerate;
    SessionPut (sessionKeyName g) (user_id u);
    FindById (row_user_id row);
    GetTokenBySeries s;
    RequestCookie (rememberMeKeyName g);
    SessionGet (sessionKeyName g);
    Emit (authentication_attempted (sessionId ss)) (name g) (mark_attempted g) (Some ss) ].

(** The row of a token after a refresh that drew [secret] and parsed the age
    as [ms] milliseconds. *)
Definition refreshed_row (w : World) (secret : string) (ms : Z) (row : TokenRow) : TokenRow :=
  mkRow (row_user_id row) (row_guard row) (digest secret)
        (row_created_at row) (now w) (now w + ms).

Definition absent {A} (o : option A) : bool :=
  match o with
  | Some _ => false
  | None => true
  end.

Definition fails_invalid_session {A} (r : Result A) : bool :=
  match r with
  | Throw (AuthenticationException E_INVALID_AUTH_SESSION) => true
  | _ => false
  end.

(** What a request presents to the guard [g]. *)
Definition session_user_id (g : SessionGuard) (w : World) : option UserId :=
  match session w with
  | Some ss => values ss !! sessionKeyName g
  | None => None
  end.

Definition presented_cookie (g : SessionGuard) (w : World) : option string :=
  requestCookies w !! rememberMeKeyName g.

Definition presented_token (g : SessionGuard) (w : World) : option (string * string) :=
  match presented_cookie g w with
  | Some c => decode c
  | None => None
  end.

Definition looked_up_token (g : SessionGuard) (w : World) : option RememberMeToken :=
  match presented_token g w with
  | Some (s, _) => live w s
  | None => None
  end.

(** The reasons for which authentication is said to fail. *)
Definition stale_session_user (g : SessionGuard) (w : World) : bool :=
  match session_user_id g w with
  | Some i => truthy_id (Some i) && absent (users w !! i)
  | None => false
  end.

Definition no_session_user (g : SessionGuard) (w : World) : bool :=
  negb (truthy_id (session_user_id g w)).

Definition cookie_absent (g : SessionGuard) (w : World) : bool :=
  negb (truthy_str (presented_cookie g w)).

Definition provider_unregistered (g : SessionGuard) : bool :=
  negb (rememberMeTokenProvider g).

Definition cookie_undecodable (g : SessionGuard) (w : World) : bool :=
  match presented_cookie g w with
  | Some c => absent (decode c)
  | None => false
  end.

Definition token_missing (g : SessionGuard) (w : World) : bool :=
  match presented_token g w with
  | Some (s, _) => absent (live w s)
  | None => false
  end.

Definition token_unverified (g : SessionGuard) (w : World) : bool :=
  match presented_token g w, looked_up_token g w with
  | Some (_, v), Some t => negb (verify t v)
  | _, _ => false
  end.

Definition token_guard_mismatch (g : SessionGuard) (w : World) : bool :=
  match looked_up_token g w with
  | Some t => negb (bool_decide (guard t = name g))
  | None => false
  end.

Definition token_user_missing (g : SessionGuard) (w : World) : bool :=
  match looked_up_token g w with
  | Some t => absent (users w !! userId t)
  | None => false
  end.

(** The failure condition without the token whose owner is gone ... *)
Definition listed_failure (g : SessionGuard) (w : World) : bool :=
  stale_session_user g w
  || no_session_user g w
     && (cookie_absent g w || provider_unregistered g || cookie_undecodable g w
         || token_missing g w || token_unverified g w || token_guard_mismatch g w).

(** ... and with it. *)
Definition complete_failure (g : SessionGuard) (w : World) : bool :=
  stale_session_user g w
  || no_session_user g w
     && (cookie_absent g w || provider_unregistered g || cookie_undecodable g w
         || token_missing g w || token_unverified g w || token_guard_mismatch g w
         || token_user_missing g w).

(** A second call raises again whatever the first call raised. *)
Definition reraises_first_failure (s : State) : Prop :=
  ∀ e, (authenticate s).1 = Throw e →
       (authenticate (authenticate s).2).1 = Throw e.

(** The series whose row [logout] asks the provider to delete, if any. *)
Definition revoked_series (g : SessionGuard) (w : World) : option string :=
  if truthy_str (presented_cookie g w) && rememberMeTokenProvider g then
    match presented_token g w with
    | Some (s, _) => Some s
    | None => None
    end
  else None.

(** The first call to [authenticate] is turned down: it raises
    [InvalidAuthSession]; the guard is only marked as having attempted; the
    session, the stored tokens and the response are untouched; and the last
    thing done is the emission of the failure event. *)
Definition turned_down (g : SessionGuard) (w : World) : Prop :=
  ∃ w',
    authenticate (mkState g w) =
      (Throw invalid_session, mkState (mark_attempted g) w') ∧
    session w' = session w ∧
    tokens w' = tokens w ∧
    responseCookies w' = responseCookies w ∧
    head (log w') =
      Some (Emit (authentication_failed invalid_session (current_session_id w))
                 (name g) (mark_attempted g) (session w)).

(** The request presents to [g] a cookie that decodes to the series of the
    persisted row [row]. *)
Definition presents_row (g : SessionGuard) (w : World) (row : TokenRow) : Prop :=
  ∃ cookie s v,
    presented_cookie g w = Some cookie ∧
    decode cookie = Some (s, v) ∧
    tokens w !! s = Some row.

(** The rotation policy, between the world [w] of the request and the world
    [w'] the authentication leaves: past the minute of grace the row of the
    presented series holds the digest of the next secret of the random source
    and the cookie carries that series with that secret; within the minute
    the store is as it was and the presented cookie is sent back. *)
Definition rotation_policy (g : SessionGuard) (w w' : World) : Prop :=
  ∃ cookie s v row,
    presented_cookie g w = Some cookie ∧
    decode cookie = Some (s, v) ∧
    tokens w !! s = Some row ∧
    let age := age_or_default (rememberMeTokenAge g) in
    (row_updated_at row + 60000 < now w →
       ∃ ms, parseAge age = Some ms ∧
         tokens w' = <[s := refreshed_row w (random (entropy w)) ms row]> (tokens w) ∧
         responseCookies w' !! ("remember_" +:+ name g) =
           Some (EncryptedCookie (encode s (random (entropy w))) age true)) ∧
    (¬ row_updated_at row + 60000 < now w →
       tokens w' = tokens w ∧
       responseCookies w' !! ("remember_" +:+ name g) =
         Some (EncryptedCookie cookie age true)).

(** The success event of an authentication from the cookie comes after the
    session has been renewed, and what its listener sees is the final guard
    [g'] and the final session [ss']. *)
Definition renewed_before_success (g : SessionGuard) (w : World) (u : User)
    (g' : SessionGuard) (w' : World) : Prop :=
  ∃ ss ss' token later earlier,
    session w = Some ss ∧
    session w' = Some ss' ∧
    values ss' !! ("auth_" +:+ name g) = Some (user_id u) ∧
    sessionId ss' = N.succ (sessionId ss) ∧
    isAuthenticated g' = true ∧
    viaRemember g' = true ∧
    user g' = Some u ∧
    log w' =
      later ++
      Emit (authentication_succeeded u (sessionId ss') (Some token)) (name g)
           g' (Some ss')
      :: SessionRegenerate
      :: SessionPut ("auth_" +:+ name g) (user_id u)
      :: earlier ∧
    Forall (λ io, ∀ e n x y, io ≠ Emit e n x y) later.

(** [login] with [remember] stops at the missing token provider, with the
    session already renewed and nothing else changed. *)
Definition login_aborted (g : SessionGuard) (w : World) (u : User) : Prop :=
  ∃ ss w',
    session w = Some ss ∧
    login u true (mkState g w) =
      (Throw (RuntimeException tokens_provider_missing), mkState g w') ∧
    session w' = Some (renewed_session ("auth_" +:+ name g) (user_id u) ss) ∧
    tokens w' = tokens w ∧
    responseCookies w' = responseCookies w ∧
    log w' =
      [ SessionRegenerate;
        SessionPut ("auth_" +:+ name g) (user_id u);
        CreateUserForGuard u;
        Emit (login_attempted u) (name g) g (Some ss) ] ++ log w.

(** What [logout] does to a world with the session [ss] installed. *)
Definition logged_out_from (g : SessionGuard) (w : World) (ss : Session) : Prop :=
  ∃ w',
    (logout (mkState g w)).2 = mkState g w' ∧
    session w' =
      Some (mkSession (delete (sessionKeyName g) (values ss)) (sessionId ss)) ∧
    responseCookies w' =
      <[rememberMeKeyName g := ClearedCookie]> (responseCookies w) ∧
    Emit (logged_out (user g) (sessionId ss)) (name g) g (session w') ∈ log w' ∧
    match revoked_series g w, fault w with
    | None, _ =>
        (logout (mkState g w)).1 = Ok tt ∧ tokens w' = tokens w
    | Some s, None =>
        (logout (mkState g w)).1 = Ok tt ∧ tokens w' = delete s (tokens w)
    | Some s, Some message =>
        (logout (mkState g w)).1 = Throw (OtherError message) ∧
        tokens w' = tokens w
    end.

(** ** The rest of the guard *)

(** The value [authenticateAsClient] answers, [{ session: { ... } }]. *)
Record ClientState := mkClientState { client_session : gmap string UserId }.

(** [authenticateAsClient(user)] (1083-1095) *)
Definition authenticateAsClient (u : User) : M ClientState :=
  let* g := getThis in
  let* providerUser := createUserForGuard u in
  let userId := getId providerUser in
  ret (mkClientState {[ sessionKeyName g := userId ]}).

(** ** Vocabulary of the further properties *)

(** The test of lines 996-1001 on the row a token was read from. *)
Definition rotation_due (row : TokenRow) (w : World) : bool :=
  let d := new_Date (row_updated_at row) in
  date_lt (setSeconds d ((λ sec, sec + 60) <$> getSeconds d)) (now w).

(** The local clock runs steadily through the minute that follows the
    instant [t]: the offset of the wall-clock time 60 seconds after [t] is
    the offset at [t], and both instants are in the range of [Date]. *)
Definition steady_minute (t : Z) : Prop :=
  Z.abs t ≤ 8640000000000000 ∧
  Z.abs (t + 60000) ≤ 8640000000000000 ∧
  localTZA (LocalTime t + 60000) false = localTZA t true.

(** What no method of the guard writes: the request cookies, the users, the
    clock and the state of storage. *)
Definition environment_kept (w w' : World) : Prop :=
  requestCookies w' = requestCookies w ∧
  users w' = users w ∧
  now w' = now w ∧
  fault w' = fault w.

(** The calls that concern the remember-me cookie or the token store. *)
Definition touches_remember_me (io : IO) : bool :=
  match io with
  | RequestCookie _ | ResponseEncryptedCookie _ _ _ | ResponseClearCookie _
  | CreateToken _ | GetTokenBySeries _ | UpdateTokenBySeries _ _
  | DeleteTokenBySeries _ => true
  | _ => false
  end.

Definition is_attempted_event (io : IO) : bool :=
  match io with
  | Emit (authentication_attempted _) _ _ _ => true
  | _ => false
  end.

Definition is_failed_event (io : IO) : bool :=
  match io with
  | Emit (authentication_failed _ _) _ _ _ => true
  | _ => false
  end.

Definition is_succeeded_event (io : IO) : bool :=
  match io with
  | Emit (authentication_succeeded _ _ _) _ _ _ => true
  | _ => false
  end.

Definition count_io (p : IO → bool) (l : list IO) : nat :=
  length (List.filter p l).

(** The state of a guard of the same name and configuration at the start of
    another request. *)
Definition fresh_guard (g : SessionGuard) : SessionGuard :=
  mkGuard (name g) (rememberMeTokenAge g) (rememberMeTokenProvider g)
          false false false false None.

(** A later request [w2] that follows the request that ended in [w1]: the
    token store is the one the first request left, storage answers, the
    session is a new one without a truthy user id for [g], and the browser
    sends under [remember_<name>] the cookie [c]. *)
Definition follows_with_cookie (g : SessionGuard) (w1 w2 : World) (c : string) : Prop :=
  tokens w2 = tokens w1 ∧
  fault w2 = None ∧
  is_Some (session w2) ∧
  no_session_user g w2 = true ∧
  presented_cookie g w2 = Some c.

(** What the session of a world holds under a key. *)
Definition session_value (w : World) (key : string) : option UserId :=
  match session w with
  | Some ss => values ss !! key
  | None => None
  end.

(** Outside the session key and the cookie name of [g], session and response
    are in [w'] what they are in [w]. *)
Definition same_elsewhere (g : SessionGuard) (w w' : World) : Prop :=
  (∀ key, key ≠ sessionKeyName g → session_value w' key = session_value w key) ∧
  (∀ key, key ≠ rememberMeKeyName g →
          responseCookies w' !! key = responseCookies w !! key).

(** The rows of [m'] are those of [m], up to their hash, their expiry and
    their [updatedAt]: no series added, none removed, and every row with the
    owner, the guard and the creation time it had. *)
Definition same_rows (m m' : gmap string TokenRow) : Prop :=
  ∀ s,
    match m !! s, m' !! s with
    | Some row, Some row' =>
        row_user_id row' = row_user_id row ∧
        row_guard row' = row_guard row ∧
        row_created_at row' = row_created_at row
    | None, None => True
    | _, _ => False
    end.

(** The cookie a response sets under [remember_<name>], if it sets one. *)
Definition issued_cookie (g : SessionGuard) (w : World) : option string :=
  match responseCookies w !! ("remember_" +:+ name g) with
  | Some (EncryptedCookie c _ _) => Some c
  | _ => None
  end.

(** ** Symbolic execution of guard methods *)

Arguments truthy_id : simpl never.
Arguments truthy_str : simpl never.
Arguments age_or_default : simpl never.
Arguments decode : simpl never.
Arguments verify : simpl never.
Arguments tokens_provider_missing : simpl never.
Arguments session_missing : simpl never.
Arguments sessionKeyName : simpl never.
Arguments rememberMeKeyName : simpl never.
Arguments new_Date : simpl never.
Arguments getSeconds : simpl never.
Arguments setSeconds : simpl never.
Arguments date_lt : simpl never.

Create HintDb guard_methods.
Create HintDb guard_calls.
Create HintDb guard_monad.

#[local] Hint Unfold authenticate check login logout : guard_methods.
#[local] Hint Unfold authenticate_via_cookie authenticate_recycle getUserOrFail
  authenticationFailed getSession getTokenProvider withRememberMeTokens : guard_methods.
#[local] Hint Unfold create refresh createToken getTokenBySeries updateTokenBySeries
  deleteTokenBySeries findById createUserForGuard release session_get session_put
  session_forget session_regenerate session_sessionId request_encryptedCookie
  response_encryptedCookie response_clearCookie : guard_calls.
#[local] Hint Unfold draw expiry storage record emit live current_session_id
  : guard_calls.
#[local] Hint Unfold bind ret throw try_catch getThis getWorld setThis setWorld
  : guard_monad.

(** Unfolds a method down to a function of the state. *)
Ltac unfold_method :=
  repeat autounfold with guard_methods in *;
  repeat autounfold with guard_calls in *;
  repeat autounfold with guard_monad in *;
  cbn in *.

Ltac destruct_inner x :=
  lazymatch x with
  | context [match ?y with _ => _ end] => destruct_inner y
  | orb ?a _ => destruct_inner a
  | andb ?a _ => destruct_inner a
  | negb ?a => destruct_inner a
  | _ =>
      repeat match goal with H : context [x] |- _ => revert H end;
      destruct x eqn:?; intros
  end.

(** One case distinction of the method under execution: the innermost test
    the goal is stuck on; what is known about it is brought along, and a case
    that contradicts it is closed. *)
Ltac branch :=
  match goal with
  | |- context [match ?x with _ => _ end] => destruct_inner x
  | H : context [match ?x with _ => _ end] |- _ => destruct_inner x
  end; simplify_eq; cbn in *.

Ltac execute := unfold_method; repeat branch.

(** Turns the boolean tests met on the way into the facts they decide. *)
Ltac facts :=
  repeat match goal with
    | H : _ || _ = false |- _ => apply orb_false_elim in H; destruct H
    | H : _ && _ = true |- _ => apply andb_true_iff in H; destruct H
    | H : negb _ = false |- _ => apply negb_false_iff in H
    | H : negb _ = true |- _ => apply negb_true_iff in H
    | H : bool_decide _ = true |- _ => apply bool_decide_eq_true in H
    | H : bool_decide _ = false |- _ => apply bool_decide_eq_false in H
    | H : _ <$> ?o = Some _ |- _ => destruct o eqn:?; simplify_eq/=
    | H : _ <$> ?o = None |- _ => destruct o eqn:?; simplify_eq/=
    end.

Lemma alter_present {A} (f : A → A) (m : gmap string A) (k : string) (x : A) :
  m !! k = Some x → alter f k m = <[k := f x]> m.
Proof.
  intros Hk. apply map_eq. intros j.
  rewrite lookup_alter, lookup_insert.
  destruct (decide (k = j)) as [->|]; [by rewrite Hk|done].
Qed.

(** ** Properties *)

(** *** The two-part encoding *)

Lemma append_empty (t : string) : EmptyString +:+ t = t.
Proof. reflexivity. Qed.

Lemma append_String (c : Ascii.ascii) (s t : string) :
  String c s +:+ t = String c (s +:+ t).
Proof. reflexivity. Qed.

Lemma split_first_dot_append (s secret : string) :
  has_dot s = false → split_first_dot (encode s secret) = Some (s, secret).
Proof.
  unfold encode.
  induction s as [|c s IH]; cbn [has_dot]; intros Hs.
  - rewrite append_empty. cbn [split_first_dot]. by rewrite Ascii.eqb_refl.
  - apply orb_false_elim in Hs as [Hc Hs].
    rewrite append_String. cbn [split_first_dot]. by rewrite Hc, (IH Hs).
Qed.

Lemma split_first_dot_inv (c s secret : string) :
  split_first_dot c = Some (s, secret) → c = encode s secret ∧ has_dot s = false.
Proof.
  unfold encode. revert s.
  induction c as [|a c IH]; cbn [split_first_dot]; intros s Hc; [done|].
  destruct (Ascii.eqb a dot) eqn:Ha.
  - apply Ascii.eqb_eq in Ha. by simplify_eq.
  - destruct (split_first_dot c) as [[s1 v1]|]; [|done]. simplify_eq.
    destruct (IH s1 eq_refl) as [-> Hs1].
    rewrite append_String. cbn [has_dot]. by rewrite Ha, Hs1.
Qed.

Lemma decode_encode (s secret : string) :
  valid_series s = true → nonempty secret = true →
  decode (encode s secret) = Some (s, secret).
Proof.
  intros Hs Hv. unfold decode.
  pose proof Hs as Hs'. unfold valid_series in Hs'.
  apply andb_true_iff in Hs' as [_ Hdot]. apply negb_true_iff in Hdot.
  by rewrite (split_first_dot_append _ _ Hdot), Hs, Hv.
Qed.

Lemma decode_inv (c s secret : string) :
  decode c = Some (s, secret) →
  c = encode s secret ∧ valid_series s = true ∧ nonempty secret = true.
Proof.
  unfold decode. destruct (split_first_dot c) as [[s1 v1]|] eqn:Hc; [|done].
  destruct (valid_series s1 && nonempty v1) eqn:Hok; [|done].
  intros ?; simplify_eq. apply andb_true_iff in Hok as [? ?].
  by destruct (split_first_dot_inv _ _ _ Hc).
Qed.

(** A token minted by [create] from a random source that gives a valid
    series and a non-empty secret carries a value that decodes to its series
    and that secret, and the secret verifies against its hash. *)
Lemma minted_token_decodes uid ttl guardName ms (s : State) :
  parseAge ttl = Some ms →
  valid_series (random (entropy (world s))) = true →
  nonempty (random (N.succ (entropy (world s)))) = true →
  ∃ t s' c,
    create uid ttl guardName s = (Ok t, s') ∧
    this s' = this s ∧
    value t = Some c ∧
    decode c = Some (series t, random (N.succ (entropy (world s)))) ∧
    verify t (random (N.succ (entropy (world s)))) = true ∧
    userId t = uid ∧ guard t = guardName ∧
    expiresAt t = now (world s) + ms ∧ updatedAt t = now (world s).
Proof.
  intros Hms Hseries Hsecret. destruct s as [g w]. cbn in *.
  unfold create, draw, expiry. rewrite Hms. unfold_method.
  eexists _, _, _. split_and!; try reflexivity.
  - by apply decode_encode.
  - unfold verify. cbn. by apply bool_decide_eq_true_2.
Qed.

(** *** The guard after an attempt *)

(** A call on a guard that has attempted authentication leaves the state, log
    included, as it is, and answers from the [user] field. *)
Lemma authenticate_attempted (s : State) :
  authenticationAttempted (this s) = true →
  authenticate s = (cached (this s), s).
Proof.
  destruct s as [g w]. cbn. intros Hg. unfold cached, invalid_session.
  unfold_method. rewrite Hg. cbn. destruct (user g); reflexivity.
Qed.

(** Whatever the outcome of a call, the guard has attempted authentication
    afterwards. *)
Lemma authenticate_marks_attempted (s : State) :
  authenticationAttempted (this (authenticate s).2) = true.
Proof.
  destruct s as [g w]. execute; done.
Qed.

(** Without the session middleware the first call ends with the
    [RuntimeException] of [#getSession], the guard being already marked. *)
Lemma authenticate_without_session g w :
  authenticationAttempted g = false →
  session w = None →
  authenticate (mkState g w) =
    (Throw (RuntimeException session_missing), mkState (mark_attempted g) w).
Proof.
  intros Hg Hw.
  destruct g as [nm ag pr att lo au vr us].
  destruct w as [se rq rs ur tk nw en ft lg].
  cbn in *. subst. execute. reflexivity.
Qed.

(** C4 (amended).  Once [authenticationAttempted] is set, every further call
    to [authenticate] leaves guard and world exactly as they are (no session
    read, no provider call, no event: the log does not grow) and answers from
    the guard's [user] field: that user, or a new [InvalidAuthSession] when
    there is none, whatever the first attempt ended with.  This holds for
    any number of further calls. *)
Theorem authenticate_at_most_once (s : State) (n : nat) :
  authenticationAttempted (this s) = true →
  authenticate s = (cached (this s), s) ∧
  Nat.iter n (λ s', (authenticate s').2) s = s.
Proof.
  intros Hs. pose proof (authenticate_attempted s Hs) as Hcall.
  split; [done|].
  induction n as [|n IH]; [done|]. by rewrite Nat.iter_succ, IH, Hcall.
Qed.

(** *** Authentication from the remember-me cookie *)

(** Everything a successful authentication from the remember-me cookie
    implies about the request it started from and about the state it ends
    in. *)
Lemma remember_success_inv g w u g' w' :
  authenticationAttempted g = false →
  authenticate (mkState g w) = (Ok u, mkState g' w') →
  viaRemember g' = true →
  ∃ ss cookie s v row,
    session w = Some ss ∧
    truthy_id (values ss !! sessionKeyName g) = false ∧
    requestCookies w !! rememberMeKeyName g = Some cookie ∧
    rememberMeTokenProvider g = true ∧
    decode cookie = Some (s, v) ∧
    fault w = None ∧
    tokens w !! s = Some row ∧
    now w < row_expires_at row ∧
    verify (from_row s row) v = true ∧
    row_guard row = name g ∧
    users w !! row_user_id row = Some u ∧
    g' = mark_authenticated u true (mark_attempted g) ∧
    session w' = Some (renewed_session (sessionKeyName g) (user_id u) ss) ∧
    let age := age_or_default (rememberMeTokenAge g) in
    if rotation_due row w then
      ∃ ms, parseAge age = Some ms ∧
        tokens w' = <[s := refreshed_row w (random (entropy w)) ms row]> (tokens w) ∧
        responseCookies w' =
          <[rememberMeKeyName g := EncryptedCookie (encode s (random (entropy w))) age true]>
            (responseCookies w) ∧
        log w' =
          ResponseEncryptedCookie (rememberMeKeyName g) (encode s (random (entropy w))) age
          :: UpdateTokenBySeries s
               (mkToken s (Some (encode s (random (entropy w))))
                        (digest (random (entropy w))) (row_user_id row)
                        (row_guard row) (now w + ms) (row_created_at row) (now w))
          :: remember_log g ss s row u ++ log w
    else
      tokens w' = tokens w ∧
      responseCookies w' =
        <[rememberMeKeyName g := EncryptedCookie cookie age true]> (responseCookies w) ∧
      log w' =
        ResponseEncryptedCookie (rememberMeKeyName g) cookie age
        :: remember_log g ss s row u ++ log w.
Proof.
  intros Hg H Hvia.
  destruct g as [nm ag pr att lo au vr us].
  destruct w as [se rq rs ur tk nw en ft lg].
  cbn in Hg. subst att.
  execute; simplify_eq; cbn in *; try discriminate.
  all: facts.
  all: eexists _, _, _, _, _; split_and!; try done; try eassumption.
  all: try match goal with
           | H : values _ !! _ = _ |- truthy_id _ = _ => by rewrite H
           end.
  all: match goal with
       | H : date_lt _ _ = _ |- _ => unfold rotation_due; cbn [now]; rewrite H
       end; try done.
  all: try (eexists; split_and!; try done; by erewrite alter_present).
Qed.

(** [setSeconds(getSeconds() + n)] moves the wall-clock time by [n]
    seconds. *)
Lemma seconds_moved (t n : Z) :
  MakeDate (Day t)
           (MakeTime (HourFromTime t) (MinFromTime t) (SecFromTime t + n) (msFromTime t)) =
    t + n * 1000.
Proof using Type.
  clear. unfold MakeDate, MakeTime, Day, HourFromTime, MinFromTime, SecFromTime, msFromTime,
    msPerDay, msPerHour, msPerMinute, msPerSecond.
  Z.div_mod_to_equations. lia.
Qed.

(** The date [authenticate] compares with the current time: the instant
    whose wall-clock time is 60 seconds past the wall-clock time of [tv]. *)
Lemma date_with_buffer (tv : Z) :
  Z.abs tv ≤ 8640000000000000 →
  setSeconds (new_Date tv) ((λ sec, sec + 60) <$> getSeconds (new_Date tv)) =
    TimeClip (UTC (LocalTime tv + 60000)).
Proof.
  intros Hrange. unfold new_Date, TimeClip at 1 2.
  rewrite !bool_decide_eq_true_2 by done.
  unfold getSeconds, setSeconds. cbn [fmap option_fmap option_map].
  cbn zeta. rewrite seconds_moved. reflexivity.
Qed.

(** Through a steady minute the buffer is 60 seconds. *)
Lemma rotation_due_steady (row : TokenRow) (w : World) :
  steady_minute (row_updated_at row) →
  rotation_due row w = bool_decide (row_updated_at row + 60000 < now w).
Proof.
  intros (Hfrom & Hto & Hsteady). unfold rotation_due. cbn zeta.
  rewrite date_with_buffer by done.
  unfold UTC. rewrite Hsteady. unfold LocalTime.
  replace (row_updated_at row + localTZA (row_updated_at row) true + 60000
           - localTZA (row_updated_at row) true)
    with (row_updated_at row + 60000) by lia.
  unfold TimeClip. by rewrite bool_decide_eq_true_2 by done.
Qed.

(** X21.  In a time zone whose clock runs steadily through the minute after
    the row's [updatedAt] (always so in UTC), when [authenticate] succeeds
    from a remember-me token (a first call that ends with [viaRemember]
    set), the stored row is rotated exactly when the request is later than 60
    seconds past the row's [updatedAt]: then the row of the same series holds
    the digest of a newly drawn secret, and the cookie carries the encoding
    of that series with the new secret; otherwise the store is unchanged and
    the cookie that was presented is sent again.  The cookie's max-age is the
    configured age in both cases. *)
Theorem authenticate_rotation_policy g w u g' w' row :
  authenticationAttempted g = false →
  authenticate (mkState g w) = (Ok u, mkState g' w') →
  viaRemember g' = true →
  presents_row g w row →
  steady_minute (row_updated_at row) →
  rotation_policy g w w'.
Proof.
  intros Hg Hrun Hvia (cookie' & s' & v' & Hcookie' & Hdec' & Hrow') Hsteady.
  destruct (remember_success_inv _ _ _ _ _ Hg Hrun Hvia)
    as (ss & cookie & s & v & row0 & _ & _ & Hcookie & _ & Hdec & _ & Hrow
        & _ & _ & _ & _ & _ & _ & Hrecycle).
  unfold presented_cookie in Hcookie'. rewrite Hcookie in Hcookie'. simplify_eq.
  exists cookie', s', v', row. do 3 (split; [done|]).
  cbn zeta in *. rewrite (rotation_due_steady _ _ Hsteady) in Hrecycle.
  split; intros Hcond; case_bool_decide; try done.
  - destruct Hrecycle as (ms & Hms & Htok & Hresp & _).
    exists ms. split_and!; try done. rewrite Hresp. apply lookup_insert_eq.
  - destruct Hrecycle as (Htok & Hresp & _).
    split; [done|]. rewrite Hresp. apply lookup_insert_eq.
Qed.

(** C8.  When [authenticate] succeeds from a remember-me token, the success
    event is emitted after the user id has been put in the session under
    [auth_<name>] and the session identifier has been cycled, and a listener
    of that event already sees the renewed session and the guard with
    [isAuthenticated] and [viaRemember] set: what it sees is the final guard
    and the final session. *)
Theorem authenticate_remember_renews_session g w u g' w' :
  authenticationAttempted g = false →
  authenticate (mkState g w) = (Ok u, mkState g' w') →
  viaRemember g' = true →
  renewed_before_success g w u g' w'.
Proof.
  intros Hg Hrun Hvia.
  destruct (remember_success_inv _ _ _ _ _ Hg Hrun Hvia)
    as (ss & cookie & s & v & row & Hss & _ & _ & _ & _ & _ & _
        & _ & _ & _ & _ & Hg' & Hss' & Hrecycle).
  cbn in Hrecycle. subst g'.
  exists ss, (renewed_session (sessionKeyName g) (user_id u) ss), (from_row s row).
  destruct (rotation_due row w).
  - destruct Hrecycle as (ms & _ & _ & _ & Hlog).
    eexists [_; _], _. split_and!; try done.
    + cbn. apply lookup_insert_eq.
    + rewrite Hlog. reflexivity.
    + repeat constructor; congruence.
  - destruct Hrecycle as (_ & _ & Hlog).
    eexists [_], _. split_and!; try done.
    + cbn. apply lookup_insert_eq.
    + rewrite Hlog. reflexivity.
    + repeat constructor; congruence.
Qed.

(** *** Requests that are turned down *)

(** Sets a request up for execution: guard and world are taken apart and the
    vocabulary of the statement is unfolded. *)
Ltac take_apart g w :=
  destruct g as [nm ag pr att lo au vr us];
  destruct w as [se rq rs ur tk nw en ft lg];
  unfold turned_down, presents_row, no_session_user, cookie_undecodable,
    presented_token, presented_cookie, session_user_id, current_session_id,
    is_Some in *;
  cbn in *; destruct_and?; simplify_eq.

(** Closes the cases of an execution that is bound to fail: the case at hand
    either contradicts what is known or ends in the failure stated. *)
Ltac close_turned_down :=
  execute; facts; try done; try lia;
  eexists; split_and!; try done; eauto.

(** C2.  A persisted row minted for another guard does not authenticate: when
    the cookie presented to guard [g] decodes to the series of a row whose
    guard differs from the name of [g], the first call to [authenticate]
    fails with [InvalidAuthSession], whatever the presented value and the
    stored hash are (so also when they match); the guard is left
    unauthenticated and neither session, store nor response is touched. *)
Theorem authenticate_rejects_other_guard g w row :
  authenticationAttempted g = false →
  is_Some (session w) →
  no_session_user g w = true →
  fault w = None →
  presents_row g w row →
  row_guard row ≠ name g →
  turned_down g w.
Proof.
  intros Hg [ss Hss] Hid Hfault (cookie & s & v & Hcookie & Hdec & Hrow) Hguard.
  take_apart g w. close_turned_down.
Qed.

(** C3.  A persisted row whose [expiresAt] is not later than the current time
    does not authenticate: presenting its cookie on a first call fails with
    [InvalidAuthSession]; and an authentication that succeeds from a
    remember-me token used a row with [now < expiresAt]. *)
Theorem authenticate_rejects_expired_token g w :
  authenticationAttempted g = false →
  (∀ row,
     is_Some (session w) →
     no_session_user g w = true →
     fault w = None →
     presents_row g w row →
     row_expires_at row ≤ now w →
     turned_down g w) ∧
  (∀ u g' w',
     authenticate (mkState g w) = (Ok u, mkState g' w') →
     viaRemember g' = true →
     ∃ row, presents_row g w row ∧ now w < row_expires_at row).
Proof.
  intros Hg. split.
  - intros row [ss Hss] Hid Hfault (cookie & s & v & Hcookie & Hdec & Hrow) Hexp.
    take_apart g w. close_turned_down.
  - intros u g' w' Hrun Hvia.
    destruct (remember_success_inv _ _ _ _ _ Hg Hrun Hvia)
      as (ss & cookie & s & v & row & _ & _ & Hcookie & _ & Hdec & _ & Hrow
          & Hlive & _).
    exists row. split; [|done]. by exists cookie, s, v.
Qed.

(** C7.  Decoding undoes encoding on every well-formed pair (a valid series
    and a non-empty secret); [decode] is total and answers [None] on every
    string that is not the encoding of a well-formed pair; and a cookie that
    does not decode makes the first call to [authenticate] fail with
    [InvalidAuthSession], with the failure event emitted and nothing else
    touched. *)
Theorem decode_roundtrip_and_rejection :
  (∀ s secret,
     valid_series s = true → nonempty secret = true →
     decode (encode s secret) = Some (s, secret)) ∧
  (∀ c,
     (∀ s secret, valid_series s = true → nonempty secret = true →
                  c ≠ encode s secret) →
     decode c = None) ∧
  (∀ g w,
     authenticationAttempted g = false →
     is_Some (session w) →
     no_session_user g w = true →
     cookie_undecodable g w = true →
     turned_down g w).
Proof.
  split_and!.
  - apply decode_encode.
  - intros c Hc. destruct (decode c) as [[s secret]|] eqn:Hdec; [|done].
    destruct (decode_inv _ _ _ Hdec) as (-> & Hs & Hv).
    by destruct (Hc s secret Hs Hv).
  - intros g w Hg [ss Hss] Hid Hdec.
    take_apart g w. close_turned_down.
Qed.

(** C5 (amended).  With the session installed and storage answering, a first
    call to [authenticate] fails with [InvalidAuthSession] exactly when a
    truthy session user id is there but the user provider finds no one, or
    there is no truthy session user id and the cookie is absent, or no token
    provider is registered, or the cookie does not decode, or the token
    looked up by series is missing, fails [verify], has another guard name,
    or belongs to a user the user provider does not find. *)
Theorem authenticate_failure_conditions g w :
  authenticationAttempted g = false →
  is_Some (session w) →
  fault w = None →
  fails_invalid_session (authenticate (mkState g w)).1 = complete_failure g w.
Proof.
  intros Hg [ss Hss] Hfault.
  destruct g as [nm ag pr att lo au vr us].
  destruct w as [se rq rs ur tk nw en ft lg].
  cbn in *. subst.
  unfold complete_failure, stale_session_user, no_session_user, cookie_absent,
    provider_unregistered, cookie_undecodable, token_missing, token_unverified,
    token_guard_mismatch, token_user_missing, looked_up_token, presented_token,
    presented_cookie, session_user_id.
  execute; facts; cbn; done.
Qed.

(** *** [check] *)

(** C6.  [check] answers [true] when [authenticate] succeeds and [false] when
    it raises an [AuthenticationException] (the class of the two auth-failure
    kinds); any other exception leaves [check] as it left [authenticate].
    The state is the one [authenticate] reached. *)
Theorem check_converts_auth_failures (s : State) :
  match authenticate s with
  | (Ok _, s') => check s = (Ok true, s')
  | (Throw (AuthenticationException _), s') => check s = (Ok false, s')
  | (Throw e, s') => check s = (Throw e, s')
  end.
Proof.
  unfold check, try_catch, bind, ret, throw.
  destruct (authenticate s) as [[u|e] s']; [done|]. by destruct e.
Qed.

(** [check] lets a configuration error through: without the session
    middleware the first call raises the [RuntimeException] of
    [#getSession]. *)
Lemma check_propagates_configuration_error g w :
  authenticationAttempted g = false →
  session w = None →
  check (mkState g w) =
    (Throw (RuntimeException session_missing), mkState (mark_attempted g) w).
Proof.
  intros Hg Hw.
  destruct g as [nm ag pr att lo au vr us].
  destruct w as [se rq rs ur tk nw en ft lg].
  cbn in *. subst. unfold check. execute. reflexivity.
Qed.

(** [check] lets a storage failure through. *)
Lemma check_propagates_storage_failure g w ss i message :
  authenticationAttempted g = false →
  session w = Some ss →
  values ss !! sessionKeyName g = Some i →
  truthy_id (Some i) = true →
  fault w = Some message →
  (check (mkState g w)).1 = Throw (OtherError message).
Proof.
  intros Hg Hw Hi Ht Hf.
  destruct g as [nm ag pr att lo au vr us].
  destruct w as [se rq rs ur tk nw en ft lg].
  cbn in *. subst. unfold check. execute. reflexivity.
Qed.

(** *** [login] and [logout] *)

(** C9.  [login] with [remember] on a guard without a token provider raises
    the [RuntimeException] of [#getTokenProvider], and it does so after the
    session has been changed: the state the exception leaves behind has the
    user id under [auth_<name>] and a cycled session identifier; the guard
    itself, the store and the response are as before. *)
Theorem login_remember_without_provider g w u :
  rememberMeTokenProvider g = false →
  is_Some (session w) →
  login_aborted g w u.
Proof.
  intros Hg [ss Hw].
  destruct g as [nm ag pr att lo au vr us].
  destruct w as [se rq rs ur tk nw en ft lg].
  unfold login_aborted.
  cbn in *. subst. execute. eexists _, _. split_and!; reflexivity.
Qed.

(** C10.  [logout] never changes the guard instance: [isLoggedOut], [user],
    [isAuthenticated] and [viaRemember] are what they were.  With the session
    installed it forgets the session key, clears the remember-me cookie,
    emits [logged_out], and asks for the deletion of the row of the decoded
    series; it returns without that request when the cookie is absent, the
    provider is not registered or the cookie does not decode. *)
Theorem logout_effects g w :
  this (logout (mkState g w)).2 = g ∧
  ∀ ss, session w = Some ss → logged_out_from g w ss.
Proof using Type.
  destruct g as [nm ag pr att lo au vr us].
  destruct w as [se rq rs ur tk nw en ft lg].
  split.
  - execute; done.
  - intros ss Hss. cbn in Hss. subst se.
    unfold logged_out_from, revoked_series, presented_token, presented_cookie.
    execute; eexists; split_and!; try done;
      repeat first [apply list_elem_of_here | apply list_elem_of_further].
Qed.

(** ** Further properties *)

#[local] Hint Unfold authenticateAsClient : guard_methods.

(** Takes guard and world apart and unfolds the vocabulary of the further
    properties. *)
Ltac lay_out g w :=
  destruct g as [nm ag pr att lo au vr us];
  destruct w as [se rq rs ur tk nw en ft lg];
  unfold turned_down, environment_kept, follows_with_cookie, issued_cookie,
    fresh_guard, no_session_user, cookie_absent, presented_cookie,
    session_user_id, current_session_id, is_Some in *;
  cbn in *; destruct_and?; simplify_eq.

(** Brings what is known about a lookup to the places where its result is
    used. *)
Ltac recall :=
  repeat match goal with
    | H : ?x = Some _, H' : context [_ <$> ?x] |- _ => rewrite H in H'
    | H : ?x = None, H' : context [_ <$> ?x] |- _ => rewrite H in H'
    end;
  simplify_eq/=.

(** *** Authentication from the session *)

(** The run of [authenticate] on a session that holds the id of a user the
    provider finds. *)
Lemma session_success_run g w ss i u :
  authenticationAttempted g = false →
  session w = Some ss →
  values ss !! sessionKeyName g = Some i →
  truthy_id (Some i) = true →
  fault w = None →
  users w !! i = Some u →
  ∃ w',
    authenticate (mkState g w) =
      (Ok u, mkState (mark_authenticated u false (mark_attempted g)) w') ∧
    session w' = session w ∧
    tokens w' = tokens w ∧
    responseCookies w' = responseCookies w ∧
    entropy w' = entropy w ∧
    environment_kept w w' ∧
    log w' =
      [ Emit (authentication_succeeded u (sessionId ss) None) (name g)
             (mark_authenticated u false (mark_attempted g)) (Some ss);
        FindById i;
        SessionGet (sessionKeyName g);
        Emit (authentication_attempted (sessionId ss)) (name g)
             (mark_attempted g) (Some ss) ] ++ log w.
Proof.
  intros Hg Hss Hi Htruthy Hfault Hu.
  lay_out g w. execute; recall. eexists. split_and!; reflexivity.
Qed.

(** X1.  A first call to [authenticate] on a session that holds the id of an
    existing user answers that user and marks the guard authenticated with
    [viaRemember] off; the session keeps its identifier and its values, and
    nothing that concerns the remember-me cookie or the token store is
    called: a cookie that comes with the request is not even read. *)
Theorem authenticate_from_session g w ss i u :
  authenticationAttempted g = false →
  session w = Some ss →
  values ss !! sessionKeyName g = Some i →
  truthy_id (Some i) = true →
  fault w = None →
  users w !! i = Some u →
  ∃ g' w' added,
    authenticate (mkState g w) = (Ok u, mkState g' w') ∧
    user g' = Some u ∧
    isAuthenticated g' = true ∧
    viaRemember g' = false ∧
    isLoggedOut g' = false ∧
    session w' = Some ss ∧
    tokens w' = tokens w ∧
    responseCookies w' = responseCookies w ∧
    log w' = added ++ log w ∧
    Forall (λ io, touches_remember_me io = false) added.
Proof.
  intros Hg Hss Hi Htruthy Hfault Hu.
  destruct (session_success_run g w ss i u Hg Hss Hi Htruthy Hfault Hu)
    as (w' & Hrun & Hsess & Htok & Hresp & _ & _ & Hlog).
  eexists _, w', _. split_and!; try exact Hlog; try done; try congruence.
  repeat constructor.
Qed.

(** X2.  As soon as the session holds a truthy user id, the first call to
    [authenticate] stays away from the remember-me cookie and from the token
    store whatever its outcome (the user found, the user gone, storage
    down): the stored tokens and the response cookies are untouched and no
    call about them is made. *)
Theorem session_id_shadows_cookie g w ss i :
  authenticationAttempted g = false →
  session w = Some ss →
  values ss !! sessionKeyName g = Some i →
  truthy_id (Some i) = true →
  ∃ added,
    log (world (authenticate (mkState g w)).2) = added ++ log w ∧
    Forall (λ io, touches_remember_me io = false) added ∧
    tokens (world (authenticate (mkState g w)).2) = tokens w ∧
    responseCookies (world (authenticate (mkState g w)).2) = responseCookies w ∧
    session (world (authenticate (mkState g w)).2) = Some ss.
Proof.
  intros Hg Hss Hi Htruthy.
  lay_out g w. execute.
  - eexists [_; _; _]. split_and!; try reflexivity. repeat constructor.
  - eexists [_; _; _; _]. split_and!; try reflexivity. repeat constructor.
  - eexists [_; _; _; _]. split_and!; try reflexivity. repeat constructor.
Qed.

(** *** What a first call leaves behind *)

(** X3.  A first call to [authenticate] that fails with [InvalidAuthSession],
    for whatever reason, changes nothing but the [authenticationAttempted]
    flag and the log: [user], [isAuthenticated], [viaRemember] and
    [isLoggedOut] are as before, session, stored tokens and response are
    untouched, and the last thing done before raising is the emission of the
    failure event. *)
Theorem authenticate_failure_frame g w :
  authenticationAttempted g = false →
  (authenticate (mkState g w)).1 = Throw invalid_session →
  turned_down g w.
Proof.
  intros Hg Hfail.
  lay_out g w. unfold invalid_session in *.
  execute; simplify_eq; eexists; split_and!; reflexivity.
Qed.

(** X4.  A first call to [authenticate] that answers a user leaves a guard
    whose [user] is that user, with [isAuthenticated] and
    [authenticationAttempted] set and [isLoggedOut] off, so that
    [getUserOrFail] answers the same user; and the user is one the user
    provider holds. *)
Theorem authenticate_success_sets_guard g w u g' w' :
  authenticationAttempted g = false →
  authenticate (mkState g w) = (Ok u, mkState g' w') →
  user g' = Some u ∧
  isAuthenticated g' = true ∧
  isLoggedOut g' = false ∧
  authenticationAttempted g' = true ∧
  name g' = name g ∧
  rememberMeTokenProvider g' = rememberMeTokenProvider g ∧
  (∃ i, users w !! i = Some u) ∧
  environment_kept w w' ∧
  getUserOrFail (mkState g' w') = (Ok u, mkState g' w').
Proof.
  intros Hg Hrun.
  lay_out g w.
  execute; simplify_eq; facts; split_and!; try reflexivity; eauto.
Qed.

(** The run of [authenticate] when neither the session nor the request has
    anything to authenticate from. *)
Lemma no_cookie_run g w :
  authenticationAttempted g = false →
  is_Some (session w) →
  no_session_user g w = true →
  cookie_absent g w = true →
  turned_down g w.
Proof.
  intros Hg [ss Hss] Hid Hcookie.
  lay_out g w. execute; facts; try done; eexists; split_and!; reflexivity.
Qed.

(** *** [login] *)

(** The run of [login] without [remember]. *)
Lemma login_plain_run g w ss u :
  session w = Some ss →
  ∃ w',
    login u false (mkState g w) = (Ok u, mkState (mark_logged_in u g) w') ∧
    session w' = Some (renewed_session (sessionKeyName g) (user_id u) ss) ∧
    tokens w' = tokens w ∧
    responseCookies w' =
      <[rememberMeKeyName g := ClearedCookie]> (responseCookies w) ∧
    entropy w' = entropy w ∧
    environment_kept w w' ∧
    log w' =
      [ Emit (login_succeeded u (N.succ (sessionId ss)) None) (name g)
             (mark_logged_in u g)
             (Some (renewed_session (sessionKeyName g) (user_id u) ss));
        ResponseClearCookie (rememberMeKeyName g);
        SessionRegenerate;
        SessionPut (sessionKeyName g) (user_id u);
        CreateUserForGuard u;
        Emit (login_attempted u) (name g) g (Some ss) ] ++ log w.
Proof.
  intros Hss. lay_out g w. execute. eexists. split_and!; reflexivity.
Qed.

(** The run of [login] with [remember] on a guard with a token provider. *)
Lemma login_remember_run g w ss u ms :
  session w = Some ss →
  rememberMeTokenProvider g = true →
  fault w = None →
  parseAge (age_or_default (rememberMeTokenAge g)) = Some ms →
  ∃ w',
    login u true (mkState g w) = (Ok u, mkState (mark_logged_in u g) w') ∧
    session w' = Some (renewed_session (sessionKeyName g) (user_id u) ss) ∧
    tokens w' =
      <[random (entropy w) :=
          mkRow (user_id u) (name g) (digest (random (N.succ (entropy w))))
                (now w) (now w) (now w + ms)]> (tokens w) ∧
    responseCookies w' =
      <[rememberMeKeyName g :=
          EncryptedCookie (encode (random (entropy w)) (random (N.succ (entropy w))))
                          (age_or_default (rememberMeTokenAge g)) true]>
        (responseCookies w) ∧
    environment_kept w w'.
Proof.
  intros Hss Hpr Hfault Hms. lay_out g w. execute.
  eexists. split_and!; reflexivity.
Qed.

(** What a [login] that returns has done, with or without [remember]. *)
Lemma login_success_inv g w u remember u0 g' w' :
  login u remember (mkState g w) = (Ok u0, mkState g' w') →
  u0 = u ∧
  g' = mark_logged_in u g ∧
  environment_kept w w' ∧
  ∃ ss,
    session w = Some ss ∧
    session w' = Some (renewed_session (sessionKeyName g) (user_id u) ss).
Proof.
  intros Hrun. lay_out g w.
  execute; simplify_eq; split_and!; try reflexivity; by eexists.
Qed.

(** X5.  [login] without [remember], with the session installed, answers the
    user, stores the user id under [auth_<name>], cycles the session
    identifier and clears the remember-me cookie without touching the token
    store; on the guard it sets [user] and turns [isLoggedOut] off, and it
    leaves [isAuthenticated], [authenticationAttempted] and [viaRemember] as
    they were. *)
Theorem login_without_remember g w ss u :
  session w = Some ss →
  ∃ g' w',
    login u false (mkState g w) = (Ok u, mkState g' w') ∧
    user g' = Some u ∧
    isLoggedOut g' = false ∧
    isAuthenticated g' = isAuthenticated g ∧
    authenticationAttempted g' = authenticationAttempted g ∧
    viaRemember g' = viaRemember g ∧
    session w' = Some (renewed_session ("auth_" +:+ name g) (user_id u) ss) ∧
    tokens w' = tokens w ∧
    responseCookies w' !! ("remember_" +:+ name g) = Some ClearedCookie ∧
    head (log w') =
      Some (Emit (login_succeeded u (N.succ (sessionId ss)) None) (name g) g'
                 (session w')).
Proof.
  intros Hss.
  destruct (login_plain_run g w ss u Hss)
    as (w' & Hrun & Hsess & Htok & Hresp & _ & _ & Hlog).
  exists (mark_logged_in u g), w'. split_and!; try done.
  - rewrite Hresp. apply lookup_insert_eq.
  - rewrite Hlog, Hsess. reflexivity.
Qed.

(** X6.  [login] with [remember] on a guard with a token provider, with a
    valid configured age and a drawn series that is not in use, answers the
    user after having stored one new row: under the drawn series, for the
    user's id and the guard's own name, with the digest of the drawn secret
    (not the secret), created and updated now and expiring after the
    configured age; the other rows are kept, and the cookie set under
    [remember_<name>] is the encoding of that series and that secret, with
    the configured age as max-age. *)
Theorem login_with_remember_issues_token g w ss u ms :
  session w = Some ss →
  rememberMeTokenProvider g = true →
  fault w = None →
  parseAge (age_or_default (rememberMeTokenAge g)) = Some ms →
  tokens w !! random (entropy w) = None →
  let s := random (entropy w) in
  let secret := random (N.succ (entropy w)) in
  ∃ g' w',
    login u true (mkState g w) = (Ok u, mkState g' w') ∧
    user g' = Some u ∧
    tokens w' !! s =
      Some (mkRow (user_id u) (name g) (digest secret) (now w) (now w) (now w + ms)) ∧
    (∀ s', s' ≠ s → tokens w' !! s' = tokens w !! s') ∧
    size (tokens w') = S (size (tokens w)) ∧
    issued_cookie g w' = Some (encode s secret) ∧
    responseCookies w' !! ("remember_" +:+ name g) =
      Some (EncryptedCookie (encode s secret)
                            (age_or_default (rememberMeTokenAge g)) true).
Proof.
  intros Hss Hpr Hfault Hms Hnew s secret.
  destruct (login_remember_run g w ss u ms Hss Hpr Hfault Hms)
    as (w' & Hrun & _ & Htok & Hresp & _).
  exists (mark_logged_in u g), w'. unfold issued_cookie.
  rewrite Htok, Hresp. split_and!; try done.
  - apply lookup_insert_eq.
  - intros s' Hs'. by apply lookup_insert_ne.
  - by apply map_size_insert_None.
  - by rewrite lookup_insert_eq.
  - apply lookup_insert_eq.
Qed.

(** X7.  [login] does not count as an authentication attempt: a guard that
    has not attempted authentication and calls [authenticate] after a [login]
    that returned (with or without [remember]) authenticates anew from the
    session [login] has just written; when the id it stored is truthy and
    the user provider finds it, the call answers the user the provider holds
    under that id, with [viaRemember] off and without cycling the session
    identifier a second time. *)
Theorem login_then_authenticate g w u remember g1 w1 u' :
  authenticationAttempted g = false →
  login u remember (mkState g w) = (Ok u, mkState g1 w1) →
  truthy_id (Some (user_id u)) = true →
  fault w = None →
  users w !! user_id u = Some u' →
  ∃ g2 w2,
    authenticate (mkState g1 w1) = (Ok u', mkState g2 w2) ∧
    user g2 = Some u' ∧
    isAuthenticated g2 = true ∧
    viaRemember g2 = false ∧
    session w2 = session w1.
Proof.
  intros Hg Hlogin Htruthy Hfault Hu.
  destruct (login_success_inv _ _ _ _ _ _ _ Hlogin)
    as (_ & -> & (Hrq & Hus & Hnow & Hft) & ss & Hss & Hss1).
  destruct (session_success_run (mark_logged_in u g) w1
              (renewed_session (sessionKeyName g) (user_id u) ss) (user_id u) u')
    as (w2 & Hrun & Hsess & _); try done.
  - cbn. apply lookup_insert_eq.
  - congruence.
  - congruence.
  - by eexists _, w2.
Qed.

(** X8.  A user whose id is falsy ([0] or the empty string) can be logged in
    but is not recognised afterwards: [login] stores the id in the session,
    and a following [authenticate] treats the session as holding no user id;
    with no remember-me cookie in the request it fails with
    [InvalidAuthSession], even though the user provider holds the user. *)
Theorem falsy_user_id_is_not_authenticated g w u remember g1 w1 :
  authenticationAttempted g = false →
  login u remember (mkState g w) = (Ok u, mkState g1 w1) →
  truthy_id (Some (user_id u)) = false →
  cookie_absent g w = true →
  turned_down g1 w1.
Proof.
  intros Hg Hlogin Hfalsy Hcookie.
  destruct (login_success_inv _ _ _ _ _ _ _ Hlogin)
    as (_ & -> & (Hrq & Hus & Hnow & Hft) & ss & Hss & Hss1).
  apply no_cookie_run; [done|by eexists|..].
  - unfold no_session_user, session_user_id. rewrite Hss1.
    change (sessionKeyName (mark_logged_in u g)) with (sessionKeyName g).
    cbn. by rewrite lookup_insert_eq, Hfalsy.
  - unfold cookie_absent, presented_cookie in *.
    change (rememberMeKeyName (mark_logged_in u g)) with (rememberMeKeyName g).
    by rewrite Hrq.
Qed.

(** *** The remember-me cookie across requests *)

Lemma decoded_cookie_truthy (c : string) (p : string * string) :
  decode c = Some p → truthy_str (Some c) = true.
Proof. by destruct c. Qed.

(** The run of [authenticate] on a request that presents the cookie of a live
    row of this guard whose owner exists. *)
Lemma remember_success_run g w c s v row u ms :
  authenticationAttempted g = false →
  is_Some (session w) →
  no_session_user g w = true →
  presented_cookie g w = Some c →
  rememberMeTokenProvider g = true →
  decode c = Some (s, v) →
  fault w = None →
  tokens w !! s = Some row →
  now w < row_expires_at row →
  digest v = row_hash row →
  row_guard row = name g →
  users w !! row_user_id row = Some u →
  parseAge (age_or_default (rememberMeTokenAge g)) = Some ms →
  ∃ w',
    authenticate (mkState g w) =
      (Ok u, mkState (mark_authenticated u true (mark_attempted g)) w').
Proof.
  intros Hg [ss Hss] Hid Hc Hpr Hdec Hfault Hrow Hlive Hhash Hguard Hu Hms.
  pose proof (decoded_cookie_truthy _ _ Hdec) as Htruthy.
  assert (Hverify : verify (from_row s row) v = true)
    by (unfold verify; cbn; by apply bool_decide_eq_true_2).
  lay_out g w. execute; recall; facts; try done; try lia; by eexists.
Qed.

(** The run of [authenticate] on a request that presents a value whose digest
    is not the stored hash. *)
Lemma unverified_run g w c s v row :
  authenticationAttempted g = false →
  is_Some (session w) →
  no_session_user g w = true →
  presented_cookie g w = Some c →
  decode c = Some (s, v) →
  fault w = None →
  tokens w !! s = Some row →
  digest v ≠ row_hash row →
  turned_down g w.
Proof.
  intros Hg [ss Hss] Hid Hc Hdec Hfault Hrow Hhash.
  assert (Hverify : verify (from_row s row) v = false)
    by (unfold verify; cbn; by apply bool_decide_eq_false_2).
  lay_out g w. execute; recall; facts; try done;
    eexists; split_and!; reflexivity.
Qed.

(** X9.  The cookie [login] issues with [remember] authenticates a later
    request: when the random source gave a valid series and a non-empty
    secret, a guard of the same name that receives the cookie in a new
    session, against the token store as [login] left it, before the age has
    run out and while the user provider still holds the user's id,
    authenticates that user from the remember-me token. *)
Theorem remembered_login_authenticates_later g w ss u ms r g1 w1 c w2 u2 :
  session w = Some ss →
  rememberMeTokenProvider g = true →
  fault w = None →
  parseAge (age_or_default (rememberMeTokenAge g)) = Some ms →
  valid_series (random (entropy w)) = true →
  nonempty (random (N.succ (entropy w))) = true →
  login u true (mkState g w) = (r, mkState g1 w1) →
  issued_cookie g w1 = Some c →
  follows_with_cookie g w1 w2 c →
  now w2 < now w + ms →
  users w2 !! user_id u = Some u2 →
  r = Ok u ∧
  ∃ g2 w2',
    authenticate (mkState (fresh_guard g) w2) = (Ok u2, mkState g2 w2') ∧
    user g2 = Some u2 ∧
    viaRemember g2 = true.
Proof.
  intros Hss Hpr Hfault Hms Hseries Hsecret Hlogin Hissued
    (Htok2 & Hfault2 & Hsess2 & Hid2 & Hc2) Hnow Hu2.
  destruct (login_remember_run g w ss u ms Hss Hpr Hfault Hms)
    as (w' & Hrun & _ & Htok & Hresp & _).
  rewrite Hrun in Hlogin. simplify_eq. split; [done|].
  unfold issued_cookie in Hissued. rewrite Hresp, lookup_insert_eq in Hissued.
  simplify_eq.
  assert (Hrow2 : tokens w2 !! random (entropy w) =
            Some (mkRow (user_id u) (name g) (digest (random (N.succ (entropy w))))
                        (now w) (now w) (now w + ms)))
    by (rewrite Htok2, Htok; apply lookup_insert_eq).
  destruct (remember_success_run (fresh_guard g) w2 _ _ _ _ u2 ms
              eq_refl Hsess2 Hid2 Hc2 Hpr (decode_encode _ _ Hseries Hsecret)
              Hfault2 Hrow2)
    as (w2' & Hauth); try done.
  by eexists _, w2'.
Qed.

(** X10.  After a successful authentication from a remember-me token the
    cookie the response carries (the rotated one, or the presented one within
    the minute of grace) authenticates a later request of the same user:
    when the secret drawn for a rotation is not empty, a guard of the same
    name that receives that cookie in a new session, against the token store
    as it was left, before the stored expiry and with the same users,
    authenticates from the remember-me token again. *)
Theorem reissued_cookie_authenticates g w u g' w' ms c' w2 row2 :
  authenticationAttempted g = false →
  authenticate (mkState g w) = (Ok u, mkState g' w') →
  viaRemember g' = true →
  parseAge (age_or_default (rememberMeTokenAge g)) = Some ms →
  nonempty (random (entropy w)) = true →
  issued_cookie g w' = Some c' →
  follows_with_cookie g w' w2 c' →
  presents_row g w2 row2 →
  now w2 < row_expires_at row2 →
  users w2 = users w →
  ∃ g2 w2',
    authenticate (mkState (fresh_guard g) w2) = (Ok u, mkState g2 w2') ∧
    viaRemember g2 = true.
Proof.
  intros Hg Hrun Hvia Hms Hsecret Hissued (Htok2 & Hfault2 & Hsess2 & Hid2 & Hc2)
    (c2 & s2 & v2 & Hc2' & Hdec2 & Hrow2) Hnow Hus.
  destruct (remember_success_inv _ _ _ _ _ Hg Hrun Hvia)
    as (ss & c & s & v & row & _ & _ & _ & Hpr & Hdec & _ & Hrow
        & _ & Hver & Hguard & Hu & _ & _ & Hrecycle).
  rewrite Hc2 in Hc2'. simplify_eq.
  destruct (decode_inv _ _ _ Hdec) as (_ & Hseries & _).
  unfold issued_cookie in Hissued. cbn zeta in Hrecycle.
  unfold verify in Hver. cbn in Hver. apply bool_decide_eq_true in Hver.
  destruct (rotation_due row w).
  - destruct Hrecycle as (ms' & _ & Htok & Hresp & _).
    rewrite Hresp, lookup_insert_eq in Hissued. simplify_eq.
    rewrite (decode_encode _ _ Hseries Hsecret) in Hdec2. simplify_eq.
    rewrite Htok2, Htok, lookup_insert_eq in Hrow2. simplify_eq.
    assert (Hrow2' : tokens w2 !! s2 =
              Some (refreshed_row w (random (entropy w)) ms' row))
      by (by rewrite Htok2, Htok, lookup_insert_eq).
    destruct (remember_success_run (fresh_guard g) w2 _ _ _ _ u ms
                eq_refl Hsess2 Hid2 Hc2 Hpr (decode_encode _ _ Hseries Hsecret)
                Hfault2 Hrow2')
      as (w2' & Hauth); try done.
    + by rewrite Hus.
    + by eexists _, w2'.
  - destruct Hrecycle as (Htok & Hresp & _).
    rewrite Hresp, lookup_insert_eq in Hissued. simplify_eq.
    rewrite Htok2, Htok, Hrow in Hrow2. simplify_eq.
    assert (Hrow2' : tokens w2 !! s2 = Some row2)
      by (by rewrite Htok2, Htok).
    destruct (remember_success_run (fresh_guard g) w2 _ _ _ _ u ms
                eq_refl Hsess2 Hid2 Hc2 Hpr Hdec2 Hfault2 Hrow2')
      as (w2' & Hauth); try done.
    + by rewrite Hus.
    + by eexists _, w2'.
Qed.

(** X11.  Once a token has been rotated, the cookie that was presented is
    worth nothing: when an authentication from a remember-me token has
    rewritten the token store and the digest of the new secret differs from
    the digest of the presented one, a later request that presents the old
    cookie against the token store as it was left fails with
    [InvalidAuthSession]. *)
Theorem rotated_token_rejects_old_cookie g w u g' w' c s v w2 :
  authenticationAttempted g = false →
  authenticate (mkState g w) = (Ok u, mkState g' w') →
  viaRemember g' = true →
  presented_cookie g w = Some c →
  decode c = Some (s, v) →
  tokens w' ≠ tokens w →
  digest v ≠ digest (random (entropy w)) →
  follows_with_cookie g w' w2 c →
  turned_down (fresh_guard g) w2.
Proof.
  intros Hg Hrun Hvia Hc Hdec Hrotated Hdigest
    (Htok2 & Hfault2 & Hsess2 & Hid2 & Hc2).
  destruct (remember_success_inv _ _ _ _ _ Hg Hrun Hvia)
    as (ss & c0 & s0 & v0 & row0 & _ & _ & Hc0 & _ & Hdec0 & _ & Hrow0
        & _ & _ & _ & _ & _ & _ & Hrecycle).
  unfold presented_cookie in Hc. rewrite Hc in Hc0. simplify_eq.
  cbn zeta in Hrecycle.
  destruct (rotation_due row0 w); [|by destruct Hrecycle as (Htok & _)].
  destruct Hrecycle as (ms & _ & Htok & _).
  eapply (unverified_run (fresh_guard g) w2); try done.
  - rewrite Htok2, Htok. apply lookup_insert_eq.
  - done.
Qed.

(** *** [check], [logout] and [authenticateAsClient] with [authenticate] *)

(** The guard a first call leaves: with the user it answers, or only marked
    when it fails with an authentication exception. *)
Lemma first_call_guard g w :
  authenticationAttempted g = false →
  match authenticate (mkState g w) with
  | (Ok u, s') => user (this s') = Some u
  | (Throw (AuthenticationException _), s') => this s' = mark_attempted g
  | (Throw _, _) => True
  end.
Proof.
  intros Hg. lay_out g w. execute; done.
Qed.

(** X12.  [check] settles the request: on a guard that has neither attempted
    authentication nor a user yet, after [check] answered [true] a call to
    [authenticate] answers the user the guard holds, and after [check]
    answered [false] it raises [InvalidAuthSession]; in both cases without
    any further call or event. *)
Theorem check_then_authenticate g w :
  authenticationAttempted g = false →
  user g = None →
  match check (mkState g w) with
  | (Ok true, s') => ∃ u, user (this s') = Some u ∧ authenticate s' = (Ok u, s')
  | (Ok false, s') => authenticate s' = (Throw invalid_session, s')
  | (Throw e, _) => instanceof_AuthenticationException e = false
  end.
Proof.
  intros Hg Hu.
  pose proof (first_call_guard g w Hg) as Hfirst.
  pose proof (authenticate_marks_attempted (mkState g w)) as Hmark.
  unfold check, try_catch, bind, ret, throw. lazy beta.
  revert Hfirst Hmark.
  destruct (authenticate (mkState g w)) as [[u|e] s']; lazy beta iota;
    intros Hfirst Hmark; cbn [snd] in Hmark.
  - exists u. split; [done|].
    rewrite (authenticate_attempted s' Hmark). unfold cached. by rewrite Hfirst.
  - destruct e; lazy beta iota delta [instanceof_AuthenticationException];
      try done.
    rewrite (authenticate_attempted s' Hmark). unfold cached.
    rewrite Hfirst. cbn [user mark_attempted]. by rewrite Hu.
Qed.

(** [logout] leaves the guard instance as it is. *)
Lemma logout_frame (s : State) : this (logout s).2 = this s.
Proof using Type.
  destruct s as [g w]. lay_out g w. execute; done.
Qed.

(** The run of [logout] with the session installed and storage answering. *)
Lemma logout_run g w ss :
  session w = Some ss →
  fault w = None →
  ∃ w',
    logout (mkState g w) = (Ok tt, mkState g w') ∧
    session w' =
      Some (mkSession (delete (sessionKeyName g) (values ss)) (sessionId ss)) ∧
    environment_kept w w' ∧
    tokens w' =
      match revoked_series g w with
      | Some s => delete s (tokens w)
      | None => tokens w
      end.
Proof using Type.
  intros Hss Hfault. lay_out g w.
  unfold revoked_series, presented_token, presented_cookie.
  execute; eexists; split_and!; reflexivity.
Qed.

(** X13.  [logout] logs out a guard that has not attempted authentication
    yet: with the session installed and storage answering, a call to
    [authenticate] that follows [logout] in the same request fails with
    [InvalidAuthSession], whatever the session held and whatever cookie the
    request carries (the row of a cookie that decodes has just been
    deleted). *)
Theorem logout_then_authenticate g w :
  authenticationAttempted g = false →
  is_Some (session w) →
  fault w = None →
  (logout (mkState g w)).1 = Ok tt ∧
  (authenticate (logout (mkState g w)).2).1 = Throw invalid_session.
Proof.
  intros Hg [ss Hss] Hfault.
  destruct (logout_run g w ss Hss Hfault)
    as (w' & Hrun & Hsess & (Hrq & Hus & Hnow & Hft) & Htok).
  rewrite Hrun. split; [done|]. cbn.
  assert (Hkey : values (mkSession (delete (sessionKeyName g) (values ss))
                                   (sessionId ss)) !! sessionKeyName g = None)
    by apply lookup_delete_eq.
  revert Hkey Hsess.
  generalize (mkSession (delete (sessionKeyName g) (values ss)) (sessionId ss)).
  intros ss' Hkey Hsess.
  unfold revoked_series, presented_token, presented_cookie in Htok.
  rewrite <- Hrq in Htok. rewrite Hfault in Hft. clear Hrun Hrq Hus Hnow Hss Hfault.
  lay_out g w'. unfold invalid_session.
  execute; facts; try done.
  all: match goal with
       | H : delete ?s _ !! ?s = Some _ |- _ =>
           by rewrite lookup_delete_eq in H
       end.
Qed.

(** X14.  [logout] does not end the authentication of the running request:
    on a guard that has already authenticated a user, [authenticate],
    [check] and [getUserOrFail] called after [logout] still answer that user
    (or [true]), although the session key is forgotten and the cookie
    cleared. *)
Theorem logout_keeps_request_authenticated g w u :
  authenticationAttempted g = true →
  user g = Some u →
  let s1 := (logout (mkState g w)).2 in
  authenticate s1 = (Ok u, s1) ∧
  check s1 = (Ok true, s1) ∧
  getUserOrFail s1 = (Ok u, s1).
Proof.
  intros Hg Hu s1.
  pose proof (logout_frame (mkState g w)) as Hthis. fold s1 in Hthis. cbn in Hthis.
  assert (Hauth : authenticate s1 = (Ok u, s1)).
  { rewrite authenticate_attempted by (by rewrite Hthis).
    unfold cached. by rewrite Hthis, Hu. }
  split_and!; [done| |].
  - unfold check, try_catch, bind, ret. by rewrite Hauth.
  - unfold getUserOrFail, bind, getThis, ret. cbn. by rewrite Hthis, Hu.
Qed.

(** X15.  [authenticateAsClient] needs neither session nor storage: it
    answers the one-entry session [auth_<name> := user id] and leaves guard,
    session, store and response as they are; and a request whose session
    holds exactly that entry authenticates from the session as the user the
    provider holds under that id, provided the id is truthy. *)
Theorem client_session_authenticates g w u :
  ∃ cs w',
    authenticateAsClient u (mkState g w) = (Ok cs, mkState g w') ∧
    client_session cs = {[ "auth_" +:+ name g := user_id u ]} ∧
    session w' = session w ∧
    tokens w' = tokens w ∧
    responseCookies w' = responseCookies w ∧
    log w' = CreateUserForGuard u :: log w ∧
    ∀ w2 sid u',
      session w2 = Some (mkSession (client_session cs) sid) →
      truthy_id (Some (user_id u)) = true →
      fault w2 = None →
      users w2 !! user_id u = Some u' →
      ∃ g2 w2',
        authenticate (mkState (fresh_guard g) w2) = (Ok u', mkState g2 w2') ∧
        user g2 = Some u' ∧
        viaRemember g2 = false.
Proof.
  eexists (mkClientState _), _. split_and!.
  - destruct g, w. unfold_method. reflexivity.
  - reflexivity.
  - reflexivity.
  - reflexivity.
  - reflexivity.
  - reflexivity.
  - intros w2 sid u' Hss Htruthy Hfault Hu. cbn in Hss.
    destruct (session_success_run (fresh_guard g) w2 _ (user_id u) u' eq_refl Hss)
      as (w2' & Hrun & _); try done.
    + cbn. apply lookup_singleton_eq.
    + by eexists _, w2'.
Qed.

(** *** What the guard never does *)

(** X16.  [authenticate] never adds or removes a token row and never changes
    the owner, the guard or the creation time of one: whatever the request
    and the outcome, the store it leaves has the same series, each with the
    same user id, guard name and [createdAt]. *)
Theorem authenticate_keeps_rows (s : State) :
  same_rows (tokens (world s)) (tokens (world (authenticate s).2)).
Proof.
  destruct s as [g w]. unfold same_rows. intros s0. lay_out g w.
  execute; try done.
  all: match goal with
       | H : alter _ _ _ !! _ = _ |- _ =>
           rewrite lookup_alter in H; case_decide; simplify_eq
       end.
  all: repeat match goal with
         | H1 : ?m !! ?k = Some _, H2 : context [_ <$> ?m !! ?k] |- _ =>
             rewrite H1 in H2
         | H1 : ?m !! ?k = None, H2 : context [_ <$> ?m !! ?k] |- _ =>
             rewrite H1 in H2
         end; by simplify_eq/=.
Qed.

Lemma key_names_differ (g g' : SessionGuard) :
  name g ≠ name g' →
  sessionKeyName g ≠ sessionKeyName g' ∧ rememberMeKeyName g ≠ rememberMeKeyName g'.
Proof using Type.
  unfold sessionKeyName, rememberMeKeyName. intros Hne.
  split; intros Heq; cbv [String.append] in Heq; by simplify_eq.
Qed.

(** [authenticate], [login] and [logout] write the session under
    [auth_<name>] only and set or clear the cookie [remember_<name>] only. *)
Lemma methods_keep_elsewhere g w u remember :
  same_elsewhere g w (world (authenticate (mkState g w)).2) ∧
  same_elsewhere g w (world (login u remember (mkState g w)).2) ∧
  same_elsewhere g w (world (logout (mkState g w)).2).
Proof.
  unfold same_elsewhere, session_value. lay_out g w.
  split_and!; intros key Hkey; execute; try done.
  all: first [by rewrite lookup_insert_ne | by rewrite lookup_delete_ne].
Qed.

(** X17.  Guards of different names do not step on each other: whatever
    [authenticate], [login] or [logout] of guard [g] do, the session entry
    and the response cookie of a guard [g'] of another name are afterwards
    what they were before. *)
Theorem guards_are_isolated g g' w u remember :
  name g ≠ name g' →
  let kept := λ w',
    session_value w' ("auth_" +:+ name g') =
      session_value w ("auth_" +:+ name g') ∧
    responseCookies w' !! ("remember_" +:+ name g') =
      responseCookies w !! ("remember_" +:+ name g') in
  kept (world (authenticate (mkState g w)).2) ∧
  kept (world (login u remember (mkState g w)).2) ∧
  kept (world (logout (mkState g w)).2).
Proof.
  intros Hne kept. subst kept.
  destruct (key_names_differ g g' Hne) as [Hs Hc].
  destruct (methods_keep_elsewhere g w u remember)
    as ((Ha1 & Ha2) & (Hl1 & Hl2) & (Ho1 & Ho2)).
  split_and!; eauto.
Qed.

(** *** The events of a first call *)

(** Splits a log into what a call added and what was there. *)
Ltac split_log :=
  first
    [ (eexists []; split; [reflexivity|])
    | (eexists [_]; split; [reflexivity|])
    | (eexists [_; _]; split; [reflexivity|])
    | (eexists [_; _; _]; split; [reflexivity|])
    | (eexists [_; _; _; _]; split; [reflexivity|])
    | (eexists [_; _; _; _; _]; split; [reflexivity|])
    | (eexists [_; _; _; _; _; _]; split; [reflexivity|])
    | (eexists [_; _; _; _; _; _; _]; split; [reflexivity|])
    | (eexists [_; _; _; _; _; _; _; _]; split; [reflexivity|])
    | (eexists [_; _; _; _; _; _; _; _; _]; split; [reflexivity|])
    | (eexists [_; _; _; _; _; _; _; _; _; _]; split; [reflexivity|])
    | (eexists [_; _; _; _; _; _; _; _; _; _; _]; split; [reflexivity|]) ].

(** X18.  A first call to [authenticate] with the session installed emits
    [authentication_attempted] once, before any other call; it emits
    [authentication_failed] once when it fails with [InvalidAuthSession] and
    never otherwise (not when storage fails); it emits
    [authentication_succeeded] once when it answers a user and never when it
    fails with [InvalidAuthSession]; and never more than one of the two. *)
Theorem authenticate_outcome_events g w :
  authenticationAttempted g = false →
  is_Some (session w) →
  ∃ added,
    log (world (authenticate (mkState g w)).2) = added ++ log w ∧
    count_io is_attempted_event added = 1%nat ∧
    is_attempted_event <$> last added = Some true ∧
    count_io is_failed_event added =
      (if fails_invalid_session (authenticate (mkState g w)).1 then 1 else 0)%nat ∧
    (count_io is_failed_event added + count_io is_succeeded_event added ≤ 1)%nat ∧
    match (authenticate (mkState g w)).1 with
    | Ok _ => count_io is_succeeded_event added = 1%nat
    | Throw _ => True
    end.
Proof.
  intros Hg [ss Hss]. lay_out g w. unfold count_io.
  execute; split_log; cbn; split_and!; (reflexivity || lia).
Qed.

(** *** [login] around an attempt, and the token provider *)

(** X19.  Registering the token provider is what makes [remember] work: on
    any guard, with the session installed, storage answering and a valid
    configured age, [login] with [remember] called after
    [withRememberMeTokens] answers the user and issues the cookie of a new
    token, whether or not a provider was registered before;
    [withRememberMeTokens] itself leaves the world as it is. *)
Theorem registered_provider_enables_remember g w ss u ms :
  session w = Some ss →
  fault w = None →
  parseAge (age_or_default (rememberMeTokenAge g)) = Some ms →
  let s1 := (withRememberMeTokens (mkState g w)).2 in
  world s1 = w ∧
  (login u true s1).1 = Ok u ∧
  issued_cookie g (world (login u true s1).2) =
    Some (encode (random (entropy w)) (random (N.succ (entropy w)))).
Proof.
  intros Hss Hfault Hms s1.
  assert (Hs1 : s1 = mkState (this s1) w) by (by destruct g).
  assert (Hname : name (this s1) = name g) by (by destruct g).
  assert (Hage : rememberMeTokenAge (this s1) = rememberMeTokenAge g)
    by (by destruct g).
  destruct (login_remember_run (this s1) w ss u ms Hss eq_refl Hfault)
    as (w' & Hrun & _ & _ & Hresp & _); [by rewrite Hage|].
  rewrite <- Hs1 in Hrun. rewrite Hrun. cbn [fst snd world].
  unfold issued_cookie.
  change (rememberMeKeyName g) with ("remember_" +:+ name g).
  rewrite <- Hname. change ("remember_" +:+ name (this s1))
    with (rememberMeKeyName (this s1)).
  rewrite Hresp, lookup_insert_eq.
  by split_and!.
Qed.

(** X20.  A [login] that comes after an authentication attempt settles what
    the guard answers for the rest of the request: [authenticate] answers
    the logged-in user without a session read, a provider call or an event,
    and [check] answers [true], while [isAuthenticated] stays what it was
    before the [login]. *)
Theorem login_after_attempt g w u remember g1 w1 :
  authenticationAttempted g = true →
  login u remember (mkState g w) = (Ok u, mkState g1 w1) →
  authenticate (mkState g1 w1) = (Ok u, mkState g1 w1) ∧
  check (mkState g1 w1) = (Ok true, mkState g1 w1) ∧
  isAuthenticated g1 = isAuthenticated g.
Proof.
  intros Hg Hlogin.
  destruct (login_success_inv _ _ _ _ _ _ _ Hlogin) as (_ & -> & _).
  assert (Hauth : authenticate (mkState (mark_logged_in u g) w1) =
                  (Ok u, mkState (mark_logged_in u g) w1))
    by (by rewrite authenticate_attempted).
  split_and!; [done| |done].
  unfold check, try_catch, bind, ret. by rewrite Hauth.
Qed.

End Guard.

(** ** The rotation where the clock goes back *)

Section InParis.

Import Sample.

#[local] Abbreviation authenticate := (authenticate digest random parseAge paris).

(** C1.  The rotation does not follow "60 seconds past [updatedAt]" where the
    local clock changes, because the 60 seconds are added to the seconds of
    the wall clock.  In Paris on 27 October 2024, a token updated at 02:30 of
    the repeated hour is rotated by a request one second later: the row gets
    a new hash and the cookie a new value, within the minute of grace.  And a
    token updated thirty seconds before the change is not rotated by a
    request half an hour later: the row and the cookie stay as they are. *)
Theorem rotation_follows_the_wall_clock :
  (let w := repeated_hour_request in
   let w' := world (authenticate (mkState web w)).2 in
   (authenticate (mkState web w)).1 = Ok alice ∧
   viaRemember (this (authenticate (mkState web w)).2) = true ∧
   row_updated_at <$> tokens w !! "s1" = Some (now w - 1000) ∧
   row_hash <$> tokens w' !! "s1" = Some "sha256:r0"%string ∧
   responseCookies w' !! "remember_web" =
     Some (EncryptedCookie "s1.r0" (AgeStr "1 year") true)) ∧
  (let w := before_change_request in
   let w' := world (authenticate (mkState web w)).2 in
   (authenticate (mkState web w)).1 = Ok alice ∧
   viaRemember (this (authenticate (mkState web w)).2) = true ∧
   row_updated_at <$> tokens w !! "s1" = Some (now w - 1800000) ∧
   tokens w' = tokens w ∧
   responseCookies w' !! "remember_web" =
     Some (EncryptedCookie "s1.v1" (AgeStr "1 year") true)).
Proof. vm_compute. done. Qed.

End InParis.

(** ** The properties on sample requests *)

Section OnSamples.

Import Sample.

#[local] Abbreviation authenticate := (authenticate digest random parseAge localTZA).
#[local] Abbreviation check := (check digest random parseAge localTZA).
#[local] Notation "'authenticated' g w" := (authenticate (mkState g w))
  (at level 10, g at level 9, w at level 9, only parsing).

(** Within the minute of grace the row and the cookie stay as they are. *)
Example fresh_request_keeps_token :
  let w' := world (authenticated web fresh_request).2 in
  (authenticated web fresh_request).1 = Ok alice ∧
  tokens w' !! "s1" = Some row1 ∧
  responseCookies w' !! "remember_web" =
    Some (EncryptedCookie "s1.v1" (AgeStr "1 year") true).
Proof. vm_compute. done. Qed.

(** Past the minute the row of the same series gets a new hash and the cookie
    a new value. *)
Example late_request_rotates_token :
  let w' := world (authenticated web late_request).2 in
  (authenticated web late_request).1 = Ok alice ∧
  tokens w' !! "s1" =
    Some (mkRow (IdNum 7) "web" "sha256:r0" 0 60001 (60001 + 31557600000)) ∧
  responseCookies w' !! "remember_web" =
    Some (EncryptedCookie "s1.r0" (AgeStr "1 year") true).
Proof. vm_compute. done. Qed.

(** Exactly a minute after the update is still within the grace. *)
Example minute_request_keeps_token :
  tokens (world (authenticated web (at_time 60000 fresh_request)).2) !! "s1" = Some row1.
Proof. vm_compute. done. Qed.

(** The scenario of the grace window: two uses within the minute leave the
    hash as it is, a use after the minute changes it under the same series. *)
Example grace_window_scenario :
  let w1 := world (authenticated web fresh_request).2 in
  let w2 := world (authenticated web (next_request 2000 w1)).2 in
  let w3 := world (authenticated web (next_request 61000 w2)).2 in
  row_hash <$> tokens w1 !! "s1" = Some (row_hash row1) ∧
  row_hash <$> tokens w2 !! "s1" = Some (row_hash row1) ∧
  row_hash <$> tokens w3 !! "s1" = Some "sha256:r0"%string ∧
  dom (tokens w3) = dom (tokens world0).
Proof. vm_compute. done. Qed.

(** Outside its hypotheses the equivalence of C5 does not hold either: without
    the session middleware a listed condition holds and the call ends with a
    configuration error. *)
Example bare_request_is_configuration_error :
  listed_failure digest web bare_request = true ∧
  (authenticated web bare_request).1 = Throw (RuntimeException session_missing).
Proof. vm_compute. done. Qed.

Example check_sample_outcomes :
  (check (mkState web fresh_request)).1 = Ok true ∧
  (check (mkState web world0)).1 = Ok false ∧
  (check (mkState web bare_request)).1 = Throw (RuntimeException session_missing).
Proof. vm_compute. done. Qed.


Lemma authenticate_rejects_other_guard_witness :
  verify digest (from_row "s1" row1) "v1" = true ∧
  turned_down digest random parseAge localTZA api api_request.
Proof.
  split; [vm_compute; reflexivity|].
  apply (authenticate_rejects_other_guard digest random parseAge localTZA
           api api_request row1).
  - reflexivity.
  - eexists. reflexivity.
  - vm_compute. reflexivity.
  - reflexivity.
  - exists "s1.v1"%string, "s1"%string, "v1"%string.
    split_and!; vm_compute; reflexivity.
  - vm_compute. discriminate.
Defined.

Lemma authenticate_rejects_expired_token_witness :
  turned_down digest random parseAge localTZA web expired_request ∧
  ∃ row, presents_row web fresh_request row ∧
         now fresh_request < row_expires_at row.
Proof.
  split.
  - apply (proj1 (authenticate_rejects_expired_token digest random parseAge localTZA
                    web expired_request eq_refl) row1).
    + eexists. reflexivity.
    + vm_compute. reflexivity.
    + reflexivity.
    + exists "s1.v1"%string, "s1"%string, "v1"%string.
      split_and!; vm_compute; reflexivity.
    + vm_compute. discriminate.
  - apply (proj2 (authenticate_rejects_expired_token digest random parseAge localTZA
                    web fresh_request eq_refl) alice
                 (this (authenticated web fresh_request).2)
                 (world (authenticated web fresh_request).2));
      vm_compute; reflexivity.
Defined.

Lemma authenticate_at_most_once_witness :
  authenticate (mkState web_attempted world0) =
    (Throw invalid_session, mkState web_attempted world0) ∧
  Nat.iter 3 (λ s', (authenticate s').2) (mkState web_attempted world0) =
    mkState web_attempted world0.
Proof.
  apply (authenticate_at_most_once digest random parseAge localTZA
           (mkState web_attempted world0) 3).
  reflexivity.
Defined.

Lemma authenticate_failure_conditions_witness :
  fails_invalid_session (authenticate (mkState web orphan_request)).1 =
    complete_failure digest web orphan_request.
Proof.
  apply (authenticate_failure_conditions digest random parseAge localTZA web orphan_request).
  - reflexivity.
  - eexists. reflexivity.
  - reflexivity.
Defined.

Lemma decode_roundtrip_and_rejection_witness :
  decode (encode "s1" "v1") = Some ("s1"%string, "v1"%string) ∧
  decode "foobar" = None ∧
  turned_down digest random parseAge localTZA web garbled_request.
Proof.
  destruct (decode_roundtrip_and_rejection digest random parseAge localTZA)
    as (Hround & Hreject & Hguard).
  split_and!.
  - apply Hround; vm_compute; reflexivity.
  - apply Hreject. intros s secret Hs Hv Heq.
    pose proof (Hround s secret Hs Hv) as Hdec. rewrite <- Heq in Hdec.
    vm_compute in Hdec. discriminate.
  - apply Hguard.
    + reflexivity.
    + eexists. reflexivity.
    + vm_compute. reflexivity.
    + vm_compute. reflexivity.
Defined.

Lemma authenticate_remember_renews_session_witness :
  renewed_before_success web late_request alice
    (this (authenticated web late_request).2)
    (world (authenticated web late_request).2).
Proof.
  apply (authenticate_remember_renews_session digest random parseAge localTZA
           web late_request alice
           (this (authenticated web late_request).2)
           (world (authenticated web late_request).2));
    vm_compute; reflexivity.
Defined.

Lemma login_remember_without_provider_witness :
  login_aborted digest random parseAge web_plain world0 alice.
Proof.
  apply (login_remember_without_provider digest random parseAge
           web_plain world0 alice).
  - reflexivity.
  - eexists. reflexivity.
Defined.

Lemma logout_effects_witness :
  this (logout (mkState web_authenticated fresh_request)).2 = web_authenticated ∧
  logged_out_from web_authenticated fresh_request (mkSession ∅ 10).
Proof.
  destruct (logout_effects web_authenticated fresh_request) as [Hthis Hworld].
  split; [exact Hthis|]. apply Hworld. reflexivity.
Defined.

(** C4, as stated, fails without the session middleware: the first call
    raises the [RuntimeException] of [#getSession] after having marked the
    guard, and the second call raises [InvalidAuthSession] instead of that
    first failure. *)
Lemma authenticate_failure_not_cached :
  ¬ reraises_first_failure digest random parseAge localTZA (mkState web bare_request).
Proof.
  intros Hre.
  specialize (Hre (RuntimeException session_missing) eq_refl).
  vm_compute in Hre. discriminate.
Qed.

(** C5, as stated, fails for a valid token whose owner has been deleted: the
    call fails with [InvalidAuthSession] although none of the listed
    conditions holds. *)
Lemma authenticate_fails_for_orphan_token :
  fails_invalid_session (authenticate (mkState web orphan_request)).1 = true ∧
  listed_failure digest web orphan_request = false.
Proof. vm_compute. done. Qed.

End OnSamples.

(** ** The further properties on sample requests *)

Section OnScenarios.

Import Sample Scenario.

#[local] Abbreviation authenticate := (authenticate digest random parseAge localTZA).
#[local] Abbreviation check := (check digest random parseAge localTZA).
#[local] Abbreviation login := (login digest random parseAge).
#[local] Abbreviation turned_down := (turned_down digest random parseAge localTZA).

Lemma authenticate_from_session_witness :
  (authenticate (mkState web session_request)).1 = Ok alice ∧
  viaRemember (this (authenticate (mkState web session_request)).2) = false ∧
  responseCookies (world (authenticate (mkState web session_request)).2) = ∅.
Proof.
  destruct (authenticate_from_session digest random parseAge localTZA
              web session_request session_of_alice (IdNum 7) alice)
    as (g' & w' & added & Hrun & _ & _ & Hvia & _ & _ & _ & Hresp & _);
    try (vm_compute; reflexivity).
  rewrite Hrun. split_and!; [reflexivity|exact Hvia|exact Hresp].
Defined.

Lemma session_id_shadows_cookie_witness :
  is_Some (requestCookies session_request !! "remember_web") ∧
  ∃ added,
    log (world (authenticate (mkState web session_request)).2) =
      added ++ log session_request ∧
    Forall (λ io, touches_remember_me io = false) added.
Proof.
  split; [eexists; vm_compute; reflexivity|].
  destruct (session_id_shadows_cookie digest random parseAge localTZA
              web session_request session_of_alice (IdNum 7))
    as (added & Hlog & Hnone & _); try (vm_compute; reflexivity).
  by exists added.
Defined.

Lemma authenticate_failure_frame_witness :
  turned_down web world0.
Proof.
  apply (authenticate_failure_frame digest random parseAge localTZA web world0);
    vm_compute; reflexivity.
Defined.

Lemma authenticate_success_sets_guard_witness :
  user (this (authenticate (mkState web fresh_request)).2) = Some alice ∧
  isAuthenticated (this (authenticate (mkState web fresh_request)).2) = true.
Proof.
  destruct (authenticate_success_sets_guard digest random parseAge localTZA
              web fresh_request alice
              (this (authenticate (mkState web fresh_request)).2)
              (world (authenticate (mkState web fresh_request)).2))
    as (Huser & Hauth & _); try (vm_compute; reflexivity).
  by split.
Defined.

Lemma login_without_remember_witness :
  ∃ g' w',
    login alice false (mkState web world0) = (Ok alice, mkState g' w') ∧
    isAuthenticated g' = false ∧
    authenticationAttempted g' = false ∧
    responseCookies w' !! "remember_web" = Some ClearedCookie.
Proof.
  destruct (login_without_remember digest random parseAge
              web world0 (mkSession ∅ 10) alice eq_refl)
    as (g' & w' & Hrun & _ & _ & Hauth & Hatt & _ & _ & _ & Hresp & _).
  by exists g', w'.
Defined.

Lemma login_with_remember_issues_token_witness :
  ∃ g' w',
    login alice true (mkState web world0) = (Ok alice, mkState g' w') ∧
    tokens w' !! "r0" =
      Some (mkRow (IdNum 7) "web" "sha256:r1" 1000 1000 (1000 + 31557600000)) ∧
    size (tokens w') = 2%nat ∧
    issued_cookie web w' = Some "r0.r1"%string.
Proof.
  destruct (login_with_remember_issues_token digest random parseAge
              web world0 (mkSession ∅ 10) alice 31557600000)
    as (g' & w' & Hrun & _ & Hrow & _ & Hsize & Hcookie & _);
    try (vm_compute; reflexivity).
  by exists g', w'.
Defined.

Lemma login_then_authenticate_witness :
  ∃ g1 w1,
    login alice false (mkState web world0) = (Ok alice, mkState g1 w1) ∧
    ∃ g2 w2,
      authenticate (mkState g1 w1) = (Ok alice, mkState g2 w2) ∧
      user g2 = Some alice ∧
      isAuthenticated g2 = true ∧
      viaRemember g2 = false ∧
      session w2 = session w1.
Proof.
  eexists _, _. split; [vm_compute; reflexivity|].
  eapply (login_then_authenticate digest random parseAge localTZA
            web world0 alice false);
    vm_compute; reflexivity.
Defined.

Lemma falsy_user_id_is_not_authenticated_witness :
  (login zero false (mkState web world_of_zero)).1 = Ok zero ∧
  users world_of_zero !! IdNum 0 = Some zero ∧
  turned_down (this (login zero false (mkState web world_of_zero)).2)
              (world (login zero false (mkState web world_of_zero)).2).
Proof.
  split_and!; try (vm_compute; reflexivity).
  apply (falsy_user_id_is_not_authenticated digest random parseAge localTZA
           web world_of_zero zero false);
    vm_compute; reflexivity.
Defined.

Lemma remembered_login_authenticates_later_witness :
  let w1 := world (login alice true (mkState web world0)).2 in
  ∃ g2 w2',
    authenticate (mkState (fresh_guard web) (later_request 5000 "r0.r1" w1)) =
      (Ok alice, mkState g2 w2') ∧
    viaRemember g2 = true.
Proof.
  intros w1.
  destruct (remembered_login_authenticates_later digest random parseAge localTZA
              web world0 (mkSession ∅ 10) alice 31557600000
              (login alice true (mkState web world0)).1
              (this (login alice true (mkState web world0)).2) w1
              "r0.r1" (later_request 5000 "r0.r1" w1) alice)
    as (_ & g2 & w2' & Hrun & _ & Hvia);
    try (vm_compute; reflexivity).
  - split_and!; try (vm_compute; reflexivity). eexists. vm_compute. reflexivity.
  - by exists g2, w2'.
Defined.

Lemma reissued_cookie_authenticates_witness :
  let w' := world (authenticate (mkState web late_request)).2 in
  issued_cookie web w' = Some "s1.r0"%string ∧
  ∃ g2 w2',
    authenticate (mkState (fresh_guard web) (later_request 70000 "s1.r0" w')) =
      (Ok alice, mkState g2 w2') ∧
    viaRemember g2 = true.
Proof.
  intros w'. split; [vm_compute; reflexivity|].
  apply (reissued_cookie_authenticates digest random parseAge localTZA
           web late_request alice
           (this (authenticate (mkState web late_request)).2) w'
           31557600000 "s1.r0" (later_request 70000 "s1.r0" w') row1_rotated);
    try (vm_compute; reflexivity).
  - split_and!; try (vm_compute; reflexivity). eexists. vm_compute. reflexivity.
  - exists "s1.r0"%string, "s1"%string, "r0"%string.
    split_and!; vm_compute; reflexivity.
Defined.

Lemma rotated_token_rejects_old_cookie_witness :
  let w' := world (authenticate (mkState web late_request)).2 in
  tokens w' ≠ tokens late_request ∧
  turned_down (fresh_guard web) (later_request 70000 "s1.v1" w').
Proof.
  intros w'.
  assert (Hrotated : tokens w' ≠ tokens late_request).
  { intros Heq. apply (f_equal (λ m, row_hash <$> m !! "s1")) in Heq.
    vm_compute in Heq. discriminate. }
  split; [exact Hrotated|].
  apply (rotated_token_rejects_old_cookie digest random parseAge localTZA
           web late_request alice
           (this (authenticate (mkState web late_request)).2) w'
           "s1.v1" "s1" "v1");
    try (vm_compute; reflexivity).
  - exact Hrotated.
  - vm_compute. discriminate.
  - split_and!; try (vm_compute; reflexivity). eexists. vm_compute. reflexivity.
Defined.

Lemma check_then_authenticate_witness :
  (check (mkState web world0)).1 = Ok false ∧
  (authenticate (check (mkState web world0)).2).1 = Throw invalid_session.
Proof.
  pose proof (check_then_authenticate digest random parseAge localTZA web world0
                eq_refl eq_refl) as Hthen.
  destruct (check (mkState web world0)) as [[[|]|e] s'] eqn:Hcheck;
    vm_compute in Hcheck; try discriminate.
  cbn [fst snd]. rewrite Hthen. by split.
Defined.

Lemma logout_then_authenticate_witness :
  (authenticate (mkState web fresh_request)).1 = Ok alice ∧
  (authenticate (logout (mkState web fresh_request)).2).1 = Throw invalid_session.
Proof.
  split; [vm_compute; reflexivity|].
  apply (logout_then_authenticate digest random parseAge localTZA web fresh_request);
    [reflexivity|eexists; reflexivity|reflexivity].
Defined.

Lemma logout_keeps_request_authenticated_witness :
  let s1 := (logout (mkState web_authenticated fresh_request)).2 in
  authenticate s1 = (Ok alice, s1) ∧
  check s1 = (Ok true, s1) ∧
  getUserOrFail s1 = (Ok alice, s1).
Proof.
  apply (logout_keeps_request_authenticated digest random parseAge localTZA
           web_authenticated fresh_request alice);
    reflexivity.
Defined.

Lemma guards_are_isolated_witness :
  session_value (world (login alice true (mkState web api_request)).2) "auth_api" =
    session_value api_request "auth_api" ∧
  responseCookies (world (login alice true (mkState web api_request)).2)
    !! "remember_api" = responseCookies api_request !! "remember_api".
Proof.
  destruct (guards_are_isolated digest random parseAge localTZA
              web api api_request alice true)
    as (_ & Hlogin & _).
  - vm_compute. discriminate.
  - exact Hlogin.
Defined.

Lemma authenticate_outcome_events_witness :
  ∃ added,
    log (world (authenticate (mkState web late_request)).2) =
      added ++ log late_request ∧
    count_io is_attempted_event added = 1%nat ∧
    count_io is_succeeded_event added = 1%nat ∧
    count_io is_failed_event added = 0%nat.
Proof.
  destruct (authenticate_outcome_events digest random parseAge localTZA web late_request)
    as (added & Hlog & Hatt & _ & Hfail & _ & Hsucc).
  - reflexivity.
  - eexists. reflexivity.
  - exists added. split_and!; try done.
Defined.

Lemma registered_provider_enables_remember_witness :
  (login alice true (mkState web_plain world0)).1 =
    Throw (RuntimeException tokens_provider_missing) ∧
  (login alice true (withRememberMeTokens (mkState web_plain world0)).2).1 =
    Ok alice.
Proof.
  split; [vm_compute; reflexivity|].
  pose proof (registered_provider_enables_remember digest random parseAge
                web_plain world0 (mkSession ∅ 10) alice 31557600000
                eq_refl eq_refl eq_refl) as (_ & Hlogin & _).
  exact Hlogin.
Defined.

Lemma authenticate_rotation_policy_witness :
  steady_minute localTZA 0 ∧
  rotation_policy digest random parseAge web late_request
    (world (authenticate (mkState web late_request)).2).
Proof.
  assert (Hsteady : steady_minute localTZA 0)
    by (split_and!; [vm_compute; discriminate..|reflexivity]).
  split; [exact Hsteady|].
  apply (authenticate_rotation_policy digest random parseAge localTZA
           web late_request alice
           (this (authenticate (mkState web late_request)).2)
           (world (authenticate (mkState web late_request)).2) row1);
    try (vm_compute; reflexivity).
  - exists "s1.v1"%string, "s1"%string, "v1"%string.
    split_and!; vm_compute; reflexivity.
  - exact Hsteady.
Defined.

Lemma login_after_attempt_witness :
  ∃ g1 w1,
    login alice false (mkState web_attempted world0) = (Ok alice, mkState g1 w1) ∧
    authenticate (mkState g1 w1) = (Ok alice, mkState g1 w1) ∧
    check (mkState g1 w1) = (Ok true, mkState g1 w1) ∧
    isAuthenticated g1 = false.
Proof.
  eexists _, _. split; [vm_compute; reflexivity|].
  eapply (login_after_attempt digest random parseAge localTZA
           web_attempted world0 alice false);
    vm_compute; reflexivity.
Defined.

End OnScenarios.
